(** * Query repair for model-generated MongoDB filters

    A shallow embedding of [sample.py]: the repair function
    [fix_llm_query], the extraction of the candidate fragment in
    [generate_mongodb_query], the dictionary check of
    [retrieve_and_present_data], the interactive loop of [main], and the
    loader [load_csv_to_mongodb] with the start of [main] over a
    collection whose driver is a parameter.

    Python text is modelled as a [string] of code points below 256; the
    classes [\s] and [\w] are the ones of Python's [re] on that range.
    The library functions the program calls ([re.match], [re.search],
    [re.sub], [str.replace], [str.strip], [str.lower], [json.loads],
    [eval]) are modelled by executable definitions: the regular
    expressions by a backtracking matcher on the syntax of the patterns,
    the JSON decoder by the scanner of the [json] module, and [eval] on a
    fragment of the expression language.  Where a text leaves what is
    modelled (an escape for a code point above 255, a float that is not a
    short decimal, an expression outside the fragment) the outcome is
    [Unmodelled] and nothing is stated about it.  The limits the
    interpreter puts on recursion depth are not modelled. *)

From Stdlib Require Import String Ascii List ZArith NArith Bool Arith Lia.
Import ListNotations.
Open Scope string_scope.

(** ** Characters and text *)

(** The code point of a character, and tests on it. *)
Definition code (c : ascii) : N := N_of_ascii c.

Definition in_range (lo hi : N) (c : ascii) : bool :=
  (lo <=? code c)%N && (code c <=? hi)%N.

Definition is_char (n : N) (c : ascii) : bool := (code c =? n)%N.

Definition chr (n : N) : ascii := ascii_of_N n.

Definition nl : ascii := chr 10.
Definition dquote : ascii := chr 34.
Definition squote : ascii := chr 39.
Definition backslash : ascii := chr 92.

(** Source text in statements is written with [~] standing for the
    double-quote character and [|] for a line feed. *)
Fixpoint py (s : string) : string :=
  match s with
  | EmptyString => EmptyString
  | String c s' =>
      String (if is_char 126 c then dquote
              else if is_char 124 c then nl else c) (py s')
  end.

(** [\s] of [re] on a [str] pattern, and the characters [str.strip]
    removes: tab to carriage return, the four separators 28..31, space,
    NEL and the no-break space. *)
Definition is_space (c : ascii) : bool :=
  in_range 9 13 c || in_range 28 32 c || is_char 133 c || is_char 160 c.

Definition is_digit (c : ascii) : bool := in_range 48 57 c.

(** [\w] of [re] on a [str] pattern: alphanumeric characters and the
    underscore. *)
Definition is_word (c : ascii) : bool :=
  is_digit c || in_range 65 90 c || in_range 97 122 c || is_char 95 c
  || is_char 170 c || in_range 178 179 c || is_char 181 c
  || in_range 185 186 c || in_range 188 190 c
  || in_range 192 214 c || in_range 216 246 c || in_range 248 255 c.

(** ** Regular expressions

    The fragment of [re] the program uses: character classes, sequence,
    greedy option, greedy and lazy repetition of a class, numbered groups
    and the two anchors.  The matcher backtracks in the order [re] does. *)

Inductive cclass : Type :=
| CChar (c : ascii)        (* a literal character *)
| CSpace                   (* \s *)
| CWord                    (* \w *)
| CAny                     (* . under DOTALL, and [\s\S] *)
| CNot (c : ascii)         (* [^c] *)
| COneOf (l : list ascii). (* [abc] *)

Definition mem (k : cclass) (c : ascii) : bool :=
  match k with
  | CChar d => Ascii.eqb c d
  | CSpace => is_space c
  | CWord => is_word c
  | CAny => true
  | CNot d => negb (Ascii.eqb c d)
  | COneOf l => existsb (Ascii.eqb c) l
  end.

Inductive regex : Type :=
| Lit (k : cclass)
| Cat (r1 r2 : regex)
| Opt (r : regex)            (* r?  *)
| Star (k : cclass)          (* k*  *)
| LazyStar (k : cclass)      (* k*? *)
| Group (n : nat) (r : regex)
| Bol                        (* ^ *)
| Eol.                       (* $ *)

(** [k+], [k+?] and the empty expression. *)
Definition Plus (k : cclass) : regex := Cat (Lit k) (Star k).
Definition LazyPlus (k : cclass) : regex := Cat (Lit k) (LazyStar k).
Definition Eps : regex := Opt (Lit (COneOf [])).

(** A literal text, and a sequence of expressions. *)
Fixpoint Str (s : string) : regex :=
  match s with
  | EmptyString => Eps
  | String c EmptyString => Lit (CChar c)
  | String c s' => Cat (Lit (CChar c)) (Str s')
  end.

Fixpoint seq (l : list regex) : regex :=
  match l with
  | [] => Eps
  | [r] => r
  | r :: l' => Cat r (seq l')
  end.

(** Group number to captured text. *)
Definition captures : Type := list (nat * string).

(** Group [n] is set to [t]; [group n cs] reads it. *)
Definition set_group (n : nat) (t : string) (cs : captures) : captures :=
  (n, t) :: filter (fun p => negb (Nat.eqb (fst p) n)) cs.

Fixpoint group (n : nat) (cs : captures) : string :=
  match cs with
  | [] => EmptyString
  | (m, t) :: cs' => if Nat.eqb m n then t else group n cs'
  end.

(** The text of [s] in front of its suffix [t]. *)
Definition consumed (s t : string) : string :=
  substring 0 (String.length s - String.length t) s.

Section Matcher.
(** Length of the whole subject: [^] holds where nothing is consumed. *)
Variable subject_len : nat.
Variable R : Type.

(** [p*] followed by [k]: the longest run first, then shorter ones. *)
Fixpoint star_greedy (p : ascii -> bool) (s : string)
         (k : string -> option R) : option R :=
  match s with
  | String c s' =>
      if p c then
        match star_greedy p s' k with
        | Some r => Some r
        | None => k s
        end
      else k s
  | EmptyString => k s
  end.

(** [p*?] followed by [k]: the shortest run first, then longer ones. *)
Fixpoint star_lazy (p : ascii -> bool) (s : string)
         (k : string -> option R) : option R :=
  match k s with
  | Some r => Some r
  | None =>
      match s with
      | String c s' => if p c then star_lazy p s' k else None
      | EmptyString => None
      end
  end.

(** [exec r s cs k]: the first way, in the order of [re], to match [r]
    at the head of [s] so that the continuation [k] succeeds on the rest
    of the text and the groups. *)
Fixpoint exec (r : regex) (s : string) (cs : captures)
         (k : string -> captures -> option R) : option R :=
  match r with
  | Lit cl =>
      match s with
      | String c s' => if mem cl c then k s' cs else None
      | EmptyString => None
      end
  | Cat a b => exec a s cs (fun t cs' => exec b t cs' k)
  | Opt a =>
      match exec a s cs k with
      | Some x => Some x
      | None => k s cs
      end
  | Star cl => star_greedy (mem cl) s (fun t => k t cs)
  | LazyStar cl => star_lazy (mem cl) s (fun t => k t cs)
  | Group n a =>
      exec a s cs (fun t cs' => k t (set_group n (consumed s t) cs'))
  | Bol => if Nat.eqb (String.length s) subject_len then k s cs else None
  | Eol =>
      match s with
      | EmptyString => k s cs
      | String c EmptyString => if Ascii.eqb c nl then k s cs else None
      | _ => None
      end
  end.
End Matcher.

Arguments star_greedy {R} p s k.
Arguments star_lazy {R} p s k.
Arguments exec subject_len {R} r s cs k.

(** A match: the groups and the text after the match. *)
Definition match_at (n : nat) (r : regex) (s : string)
  : option (captures * string) :=
  exec n r s [] (fun t cs => Some (cs, t)).

(** [re.match(r, s)]: a match at the start of [s]. *)
Definition re_match (r : regex) (s : string) : option captures :=
  exec (String.length s) r s [] (fun _ cs => Some cs).

(** The leftmost match in [s], a suffix of a subject of length [n]. *)
Fixpoint search_from (n : nat) (r : regex) (s : string) : option captures :=
  match match_at n r s with
  | Some (cs, _) => Some cs
  | None =>
      match s with
      | String _ s' => search_from n r s'
      | EmptyString => None
      end
  end.

(** [re.search(r, s)] *)
Definition re_search (r : regex) (s : string) : option captures :=
  search_from (String.length s) r s.

(** Replacement templates: literal text and group references. *)
Inductive titem : Type :=
| TText (s : string)
| TGroup (n : nat).

(** The text of a template for the groups of a match. *)
Fixpoint expand (t : list titem) (cs : captures) : string :=
  match t with
  | [] => EmptyString
  | TText s :: t' => s ++ expand t' cs
  | TGroup n :: t' => group n cs ++ expand t' cs
  end.

(** [re.sub(r, t, s)]: every non-overlapping match, leftmost first, is
    replaced by the expanded template.  [skip] counts the characters of
    the current match that are still to be passed over.  (The patterns of
    the program match no empty text; after an empty match the scan moves
    on by one character.) *)
Fixpoint sub_loop (n : nat) (r : regex) (t : list titem)
         (skip : nat) (s : string) {struct s} : string :=
  match skip with
  | S skip' =>
      match s with
      | String _ s' => sub_loop n r t skip' s'
      | EmptyString => EmptyString
      end
  | O =>
      match match_at n r s with
      | Some (cs, rest) =>
          expand t cs ++
          match s with
          | String c s' =>
              match String.length s - String.length rest with
              | O => String c (sub_loop n r t 0 s')
              | S m => sub_loop n r t m s'
              end
          | EmptyString => EmptyString
          end
      | None =>
          match s with
          | String c s' => String c (sub_loop n r t 0 s')
          | EmptyString => EmptyString
          end
      end
  end.

(** [re.sub(r, t, s)] *)
Definition re_sub (r : regex) (t : list titem) (s : string) : string :=
  sub_loop (String.length s) r t 0 s.

(** ** The patterns of the program *)

(** An optional double or single quote. *)
Definition quote_opt : regex := Opt (Lit (COneOf [dquote; squote])).

(** [^\s*["\']?find["\']?\s*:\s*({.*})\s*$] with [re.DOTALL]. *)
Definition find_wrapper_re : regex :=
  seq [Bol; Star CSpace; quote_opt; Str "find"; quote_opt; Star CSpace;
       Lit (CChar ":"); Star CSpace;
       Group 1 (seq [Lit (CChar "{"); Star CAny; Lit (CChar "}")]);
       Star CSpace; Eol].

(** [(\{)\s*["\']?(\$\w+)["\']?\s*,\s*([^\}]+)\}] *)
Definition comma_pair_re : regex :=
  seq [Group 1 (Lit (CChar "{")); Star CSpace; quote_opt;
       Group 2 (Cat (Lit (CChar "$")) (Plus CWord)); quote_opt;
       Star CSpace; Lit (CChar ","); Star CSpace;
       Group 3 (Plus (CNot "}")); Lit (CChar "}")].

(** The template [\1"\2":\3}]. *)
Definition comma_pair_template : list titem :=
  [TGroup 1; TText (String dquote EmptyString); TGroup 2;
   TText (String dquote ":"); TGroup 3; TText "}"].

(** [,(\s*[}\]])] and its template [\1]. *)
Definition trailing_comma_re : regex :=
  seq [Lit (CChar ","); Group 1 (Cat (Star CSpace) (Lit (COneOf ["}"; "]"]%char)))].

(** The template of [trailing_comma_re]. *)
Definition trailing_comma_template : list titem := [TGroup 1].

(** [```(?:json)?\s*([\s\S]+?)```] *)
Definition fence_re : regex :=
  seq [Str "```"; Opt (Str "json"); Star CSpace;
       Group 1 (LazyPlus CAny); Str "```"].

(** [(\{[\s\S]+\})] *)
Definition brace_span_re : regex :=
  Group 1 (seq [Lit (CChar "{"); Plus CAny; Lit (CChar "}")]).

(** [s.replace('\n', ' ')] *)
Fixpoint replace_newlines (s : string) : string :=
  match s with
  | EmptyString => EmptyString
  | String c s' => String (if Ascii.eqb c nl then " "%char else c) (replace_newlines s')
  end.

(** The four text steps of [fix_llm_query], in the order of the source;
    first the [find:] wrapper. *)
Definition unwrap_find (s : string) : string :=
  match re_match find_wrapper_re s with
  | Some cs => group 1 cs
  | None => s
  end.

(** The substitution of [comma_pair_re]. *)
Definition fix_comma_pairs (s : string) : string :=
  re_sub comma_pair_re comma_pair_template s.

(** The substitution of [trailing_comma_re]. *)
Definition strip_trailing_commas (s : string) : string :=
  re_sub trailing_comma_re trailing_comma_template s.

(** The text the two parse attempts are given. *)
Definition working_string (s : string) : string :=
  replace_newlines (strip_trailing_commas (fix_comma_pairs (unwrap_find s))).

(** ** Python values *)

(** The values the program handles.  A float is kept as the decimal it
    was written as: [VFloat neg m e] is the double nearest to
    [(-1)^neg * m * 10^e], with [m] free of trailing zeros.  A mapping is
    the list of its items in insertion order. *)
#[warnings="-register-all"]
Inductive pyval : Type :=
| VNone
| VBool (b : bool)
| VInt (z : Z)
| VFloat (neg : bool) (m : N) (e : Z)
| VStr (s : string)
| VList (l : list pyval)
| VDict (d : list (pyval * pyval))
| VBuiltin (name : string).

(** What a library call does: it returns, it raises an [Exception], or
    the input is outside the part of the library that is modelled. *)
Inductive outcome (A : Type) : Type :=
| Returns (a : A)
| Raises
| Unmodelled.

Arguments Returns {A} a.
Arguments Raises {A}.
Arguments Unmodelled {A}.

(** Sequencing: what does not return ends the computation. *)
Definition bind {A B : Type} (x : outcome A) (f : A -> outcome B) : outcome B :=
  match x with
  | Returns a => f a
  | Raises => Raises
  | Unmodelled => Unmodelled
  end.

Notation "'do' x <- a ; b" := (bind a (fun x => b))
  (at level 10, x pattern, a at level 100, b at level 200).

(** [isinstance(v, dict)] and [isinstance(v, str)]. *)
Definition isinstance_dict (v : pyval) : bool :=
  match v with VDict _ => true | _ => false end.

Definition isinstance_str (v : pyval) : bool :=
  match v with VStr _ => true | _ => false end.

(** Equality of hashable keys: [True == 1] and [False == 0]; floats and
    containers are not compared here. *)
Definition key_eqb (a b : pyval) : bool :=
  match a, b with
  | VNone, VNone => true
  | VStr x, VStr y => String.eqb x y
  | VInt x, VInt y => Z.eqb x y
  | VBool x, VBool y => Bool.eqb x y
  | VInt x, VBool y | VBool y, VInt x => Z.eqb x (if y then 1 else 0)
  | _, _ => false
  end.

(** [d[k]], when [k in d]. *)
Fixpoint dict_get (k : pyval) (d : list (pyval * pyval)) : option pyval :=
  match d with
  | [] => None
  | (k', v) :: d' => if key_eqb k k' then Some v else dict_get k d'
  end.

(** [d[k] = v]: the value is replaced in place, a new key goes last. *)
Fixpoint dict_set (k v : pyval) (d : list (pyval * pyval))
  : list (pyval * pyval) :=
  match d with
  | [] => [(k, v)]
  | (k', v') :: d' =>
      if key_eqb k k' then (k', v) :: d' else (k', v') :: dict_set k v d'
  end.

(** Truth value of [if v:]. *)
Definition truthy (v : pyval) : bool :=
  match v with
  | VNone => false
  | VBool b => b
  | VInt z => negb (Z.eqb z 0)
  | VFloat _ m _ => negb (N.eqb m 0)
  | VStr s => negb (String.eqb s EmptyString)
  | VList l => match l with [] => false | _ => true end
  | VDict d => match d with [] => false | _ => true end
  | VBuiltin _ => true
  end.

(** ** Numbers in text *)

(** The number a run of decimal digits denotes. *)
Definition digit_val (c : ascii) : N := (code c - 48)%N.

Fixpoint N_of_digits_acc (s : string) (acc : N) : N :=
  match s with
  | EmptyString => acc
  | String c s' => N_of_digits_acc s' (10 * acc + digit_val c)%N
  end.

Definition N_of_digits (s : string) : N := N_of_digits_acc s 0.

(** The longest prefix of digits, and the rest. *)
Fixpoint span_digits (s : string) : string * string :=
  match s with
  | String c s' =>
      if is_digit c then
        let (d, r) := span_digits s' in (String c d, r)
      else (EmptyString, s)
  | EmptyString => (EmptyString, EmptyString)
  end.

(** [m * 10^e] with the trailing zeros of [m] moved to the exponent. *)
Fixpoint strip_zeros (fuel : nat) (m : N) (e : Z) : N * Z :=
  match fuel with
  | O => (m, e)
  | S f =>
      if (N.eqb m 0) then (0%N, 0%Z)
      else if N.eqb (m mod 10) 0 then strip_zeros f (m / 10)%N (e + 1)%Z
      else (m, e)
  end.

(** The float written with digits [ds] (integer and fraction together)
    and decimal exponent [e].  Decimals of at most 15 significant digits
    well inside the range of a double denote distinct doubles; the others
    are left out of the model. *)
Definition mk_float (neg : bool) (ds : string) (e : Z) : outcome pyval :=
  let (m, e') := strip_zeros (String.length ds) (N_of_digits ds) e in
  if N.eqb m 0 then Returns (VFloat neg 0 0)
  else if (m <? 10 ^ 15)%N && (-300 <=? e')%Z && (e' <=? 290)%Z
       then Returns (VFloat neg m e')
       else Unmodelled.

(** [int] of a digit string; the interpreter refuses conversions of more
    than 4300 digits in some versions, which is left out of the model. *)
Definition mk_int (neg : bool) (ds : string) : outcome pyval :=
  if Nat.ltb 4300 (String.length ds) then Unmodelled
  else let z := Z.of_N (N_of_digits ds) in
       Returns (VInt (if neg then - z else z)).

(** ** [json.loads] *)

(** [s.startswith(p)], and [s] without its first [n] characters. *)
Fixpoint starts_with (p s : string) : bool :=
  match p, s with
  | EmptyString, _ => true
  | String a p', String b s' => Ascii.eqb a b && starts_with p' s'
  | String _ _, EmptyString => false
  end.

Fixpoint drop (n : nat) (s : string) : string :=
  match n, s with
  | S n', String _ s' => drop n' s'
  | _, _ => s
  end.

(** The white space of JSON: space, tab, line feed, carriage return. *)
Definition is_json_ws (c : ascii) : bool :=
  is_char 32 c || is_char 9 c || is_char 10 c || is_char 13 c.

Fixpoint skip_json_ws (s : string) : string :=
  match s with
  | String c s' => if is_json_ws c then skip_json_ws s' else s
  | EmptyString => s
  end.

(** The value of a hexadecimal digit, and of four of them. *)
Definition hex_val (c : ascii) : option N :=
  if is_digit c then Some (code c - 48)%N
  else if in_range 97 102 c then Some (code c - 87)%N
  else if in_range 65 70 c then Some (code c - 55)%N
  else None.

Definition hex4 (a b c d : ascii) : option N :=
  match hex_val a, hex_val b, hex_val c, hex_val d with
  | Some x, Some y, Some z, Some w => Some (((x * 16 + y) * 16 + z) * 16 + w)%N
  | _, _, _, _ => None
  end.

(** The string scanner in strict mode, entered after the opening quote:
    the text of the string and what follows its closing quote.  An escape
    for a code point above 255 is outside the model. *)
Fixpoint scanstring (s : string) : outcome (string * string) :=
  match s with
  | EmptyString => Raises
  | String c s1 =>
      if Ascii.eqb c dquote then Returns (EmptyString, s1)
      else if Ascii.eqb c backslash then
        match s1 with
        | EmptyString => Raises
        | String e s2 =>
            let simple (x : ascii) :=
              do (t, r) <- scanstring s2; Returns (String x t, r) in
            if Ascii.eqb e dquote then simple dquote
            else if Ascii.eqb e backslash then simple backslash
            else if Ascii.eqb e "/" then simple "/"%char
            else if Ascii.eqb e "b" then simple (chr 8)
            else if Ascii.eqb e "f" then simple (chr 12)
            else if Ascii.eqb e "n" then simple (chr 10)
            else if Ascii.eqb e "r" then simple (chr 13)
            else if Ascii.eqb e "t" then simple (chr 9)
            else if Ascii.eqb e "u" then
              match s2 with
              | String h1 (String h2 (String h3 (String h4 s3))) =>
                  match hex4 h1 h2 h3 h4 with
                  | Some n =>
                      if (n <? 256)%N then
                        do (t, r) <- scanstring s3; Returns (String (chr n) t, r)
                      else Unmodelled
                  | None => Raises
                  end
              | _ => Raises
              end
            else Raises
        end
      else if (code c <=? 31)%N then Raises
      else do (t, r) <- scanstring s1; Returns (String c t, r)
  end.

(** The number matcher: an optional minus sign, then [0] or a digit run
    that does not start with [0], then an optional fraction (a dot and
    at least one digit) and an optional exponent ([e] or [E], an optional
    sign, at least one digit); an [int] without fraction and exponent and
    a [float] otherwise. *)
Definition match_number (s : string) : outcome (pyval * string) :=
  let (neg, s0) :=
    match s with
    | String "-" s' => (true, s')
    | _ => (false, s)
    end in
  match s0 with
  | String c s1 =>
      if is_digit c then
        let (ip, r1) :=
          if Ascii.eqb c "0" then ("0", s1)
          else let (d, r) := span_digits s1 in (String c d, r) in
        let (fp, r2) :=
          match r1 with
          | String "." r =>
              match span_digits r with
              | (String d ds, r') => (String d ds, r')
              | _ => (EmptyString, r1)
              end
          | _ => (EmptyString, r1)
          end in
        let '(ex, r3) :=
          match r2 with
          | String x r =>
              if Ascii.eqb x "e" || Ascii.eqb x "E" then
                let (eneg, r') :=
                  match r with
                  | String "-" r' => (true, r')
                  | String "+" r' => (false, r')
                  | _ => (false, r)
                  end in
                match span_digits r' with
                | (String d ds, r'') =>
                    let z := Z.of_N (N_of_digits (String d ds)) in
                    (Some (if eneg then - z else z)%Z, r'')
                | _ => (None, r2)
                end
              else (None, r2)
          | _ => (None, r2)
          end in
        match fp, ex with
        | EmptyString, None => do v <- mk_int neg ip; Returns (v, r3)
        | _, _ =>
            let e := match ex with Some z => z | None => 0%Z end in
            do v <- mk_float neg (ip ++ fp) (e - Z.of_nat (String.length fp));
            Returns (v, r3)
        end
      else Raises
  | EmptyString => Raises
  end.

(** The scanner: one JSON value at the head of [s], and the rest.  The
    constants [NaN], [Infinity] and [-Infinity], which the decoder
    accepts, are outside the model.  [fuel] bounds the calls; a text of
    [n] characters needs fewer than [n + 1]. *)
Fixpoint scan_once (fuel : nat) (s : string) : outcome (pyval * string) :=
  match fuel with
  | O => Unmodelled
  | S f =>
      match s with
      | EmptyString => Raises
      | String c s1 =>
          if Ascii.eqb c dquote then
            do (t, r) <- scanstring s1; Returns (VStr t, r)
          else if Ascii.eqb c "{" then
            match skip_json_ws s1 with
            | String "}" r => Returns (VDict [], r)
            | s2 => parse_members f s2 []
            end
          else if Ascii.eqb c "[" then
            match skip_json_ws s1 with
            | String "]" r => Returns (VList [], r)
            | s2 => parse_elements f s2 []
            end
          else if starts_with "null" s then Returns (VNone, drop 4 s)
          else if starts_with "true" s then Returns (VBool true, drop 4 s)
          else if starts_with "false" s then Returns (VBool false, drop 5 s)
          else if starts_with "NaN" s || starts_with "Infinity" s
                  || starts_with "-Infinity" s then Unmodelled
          else match_number s
      end
  end

with parse_members (fuel : nat) (s : string) (acc : list (pyval * pyval))
  : outcome (pyval * string) :=
  match fuel with
  | O => Unmodelled
  | S f =>
      match s with
      | String c s1 =>
          if Ascii.eqb c dquote then
            do (key, r1) <- scanstring s1;
            match skip_json_ws r1 with
            | String ":" r2 =>
                do (val, r3) <- scan_once f (skip_json_ws r2);
                let acc' := dict_set (VStr key) val acc in
                match skip_json_ws r3 with
                | String "}" r4 => Returns (VDict acc', r4)
                | String "," r4 => parse_members f (skip_json_ws r4) acc'
                | _ => Raises
                end
            | _ => Raises
            end
          else Raises
      | EmptyString => Raises
      end
  end

with parse_elements (fuel : nat) (s : string) (acc : list pyval)
  : outcome (pyval * string) :=
  match fuel with
  | O => Unmodelled
  | S f =>
      do (val, r1) <- scan_once f s;
      match skip_json_ws r1 with
      | String "]" r2 => Returns (VList (acc ++ [val]), r2)
      | String "," r2 => parse_elements f (skip_json_ws r2) (acc ++ [val])
      | _ => Raises
      end
  end.

(** [json.loads(s)]: leading white space, one value, trailing white
    space, and nothing else. *)
Definition json_loads (s : string) : outcome pyval :=
  do (v, r) <- scan_once (S (String.length s)) (skip_json_ws s);
  match skip_json_ws r with
  | EmptyString => Returns v
  | _ => Raises
  end.

(** ** [eval]

    The built-in [eval] on a fragment of the expression language: names,
    the constants [True], [False] and [None], decimal integers and
    floats, plain quoted strings, list and dict displays, parentheses,
    calls with positional arguments, unary minus and [not].  A text that
    leaves the fragment is [Unmodelled]; [Raises] is only answered where
    the interpreter raises for certain. *)

Inductive token : Type :=
| TName (s : string)
| TNum (v : pyval)
| TStr (s : string)
| TPunct (c : ascii).

Definition is_ident_start (c : ascii) : bool :=
  in_range 65 90 c || in_range 97 122 c || is_char 95 c.

Definition is_ident_char (c : ascii) : bool :=
  is_ident_start c || is_digit c.

Fixpoint span_ident (s : string) : string * string :=
  match s with
  | String c s' =>
      if is_ident_char c then
        let (d, r) := span_ident s' in (String c d, r)
      else (EmptyString, s)
  | EmptyString => (EmptyString, EmptyString)
  end.

Definition is_quote (c : ascii) : bool :=
  Ascii.eqb c dquote || Ascii.eqb c squote.

(** A quoted string, entered after its opening quote [q]. *)
Fixpoint py_string (q : ascii) (s : string) : outcome (string * string) :=
  match s with
  | EmptyString => Raises          (* unterminated string literal *)
  | String c s1 =>
      if Ascii.eqb c q then Returns (EmptyString, s1)
      else if Ascii.eqb c nl then Raises
      else if Ascii.eqb c backslash then
        match s1 with
        | EmptyString => Unmodelled
        | String e s2 =>
            let simple (x : ascii) :=
              do (t, r) <- py_string q s2; Returns (String x t, r) in
            if Ascii.eqb e backslash then simple backslash
            else if Ascii.eqb e dquote then simple dquote
            else if Ascii.eqb e squote then simple squote
            else if Ascii.eqb e "n" then simple (chr 10)
            else if Ascii.eqb e "t" then simple (chr 9)
            else if Ascii.eqb e "r" then simple (chr 13)
            else if Ascii.eqb e "x" then
              match s2 with
              | String h1 (String h2 s3) =>
                  match hex_val h1, hex_val h2 with
                  | Some a, Some b =>
                      do (t, r) <- py_string q s3;
                      Returns (String (chr (a * 16 + b)) t, r)
                  | _, _ => Unmodelled
                  end
              | _ => Unmodelled
              end
            else Unmodelled
        end
      else if (code c <=? 31)%N then Unmodelled
      else do (t, r) <- py_string q s1; Returns (String c t, r)
  end.

Definition is_punct (c : ascii) : bool :=
  existsb (Ascii.eqb c) ["{"; "}"; "["; "]"; "("; ")"; ","; ":"; "-"]%char.

(** A number token: digits, or digits, a dot and digits. *)
Definition py_number (s : string) : outcome (pyval * string) :=
  let (ip, r1) := span_digits s in
  let leading_zero :=
    match ip with
    | String "0" (String _ _) => true
    | _ => false
    end in
  let closed (r : string) : bool :=
    match r with
    | String c _ => negb (is_ident_char c || Ascii.eqb c "." || (127 <? code c)%N)
    | EmptyString => true
    end in
  match r1 with
  | String "." r2 =>
      match span_digits r2 with
      | (String d ds, r3) =>
          if closed r3 then
            do v <- mk_float false (ip ++ String d ds)
                      (- Z.of_nat (String.length (String d ds)));
            Returns (v, r3)
          else Unmodelled
      | _ => Unmodelled
      end
  | _ =>
      if closed r1 && negb leading_zero then
        do v <- mk_int false ip; Returns (v, r1)
      else Unmodelled
  end.

Fixpoint tokenize (fuel : nat) (s : string) : outcome (list token) :=
  match s with
  | EmptyString => Returns []
  | String c s1 =>
      match fuel with
      | O => Unmodelled
      | S f =>
          if is_char 32 c || is_char 9 c || is_char 12 c then tokenize f s1
          else if is_ident_start c then
            let (name, r) := span_ident s in
            match r with
            | String q _ =>
                if is_quote q || (127 <? code q)%N then Unmodelled
                else do ts <- tokenize f r; Returns (TName name :: ts)
            | EmptyString => Returns [TName name]
            end
          else if is_digit c then
            do (v, r) <- py_number s;
            do ts <- tokenize f r; Returns (TNum v :: ts)
          else if is_quote c then
            match s1 with
            | String c1 (String c2 _) =>
                if Ascii.eqb c1 c && Ascii.eqb c2 c then Unmodelled
                else do (t, r) <- py_string c s1;
                     do ts <- tokenize f r; Returns (TStr t :: ts)
            | _ => do (t, r) <- py_string c s1;
                   do ts <- tokenize f r; Returns (TStr t :: ts)
            end
          else if is_punct c then
            do ts <- tokenize f s1; Returns (TPunct c :: ts)
          else if Ascii.eqb c "$" || Ascii.eqb c "?" then Raises
          else Unmodelled
      end
  end.

#[warnings="-register-all"]
Inductive expr : Type :=
| ENone
| EBool (b : bool)
| ENum (v : pyval)
| EStr (s : string)
| EName (x : string)
| EList (l : list expr)
| EDict (l : list (expr * expr))
| ECall (f : expr) (args : list expr)
| ENot (e : expr)
| ENeg (e : expr).

Definition keywords : list string :=
  ["False"; "None"; "True"; "and"; "as"; "assert"; "async"; "await";
   "break"; "class"; "continue"; "def"; "del"; "elif"; "else"; "except";
   "finally"; "for"; "from"; "global"; "if"; "import"; "in"; "is";
   "lambda"; "nonlocal"; "not"; "or"; "pass"; "raise"; "return"; "try";
   "while"; "with"; "yield"].

Definition is_keyword (x : string) : bool := existsb (String.eqb x) keywords.

Definition tok_is (c : ascii) (t : token) : bool :=
  match t with
  | TPunct d => Ascii.eqb c d
  | _ => false
  end.

(** The parser.  [parse_expr] reads an expression; [parse_trailers] the
    calls after an operand; [parse_items], [parse_pairs] the elements of
    a display or of an argument list up to the closing token [close],
    after the first element has been read. *)
Fixpoint parse_expr (fuel : nat) (ts : list token) : outcome (expr * list token) :=
  match fuel with
  | O => Unmodelled
  | S f =>
      match ts with
      | [] => Unmodelled
      | TName x :: r =>
          if String.eqb x "not" then
            do (e, r') <- parse_expr f r; Returns (ENot e, r')
          else if String.eqb x "True" then parse_trailers f (EBool true) r
          else if String.eqb x "False" then parse_trailers f (EBool false) r
          else if String.eqb x "None" then parse_trailers f ENone r
          else if is_keyword x then Unmodelled
          else parse_trailers f (EName x) r
      | TNum v :: r => parse_trailers f (ENum v) r
      | TStr s :: r =>
          match r with
          | TStr _ :: _ => Unmodelled   (* adjacent literals concatenate *)
          | _ => parse_trailers f (EStr s) r
          end
      | TPunct c :: r =>
          if Ascii.eqb c "-" then
            match r with
            | TName _ :: _ => Unmodelled
            | _ => do (e, r') <- parse_expr f r;
                   match e with
                   | ENot _ => Unmodelled
                   | _ => Returns (ENeg e, r')
                   end
            end
          else if Ascii.eqb c "(" then
            do (e, r') <- parse_expr f r;
            match r' with
            | t :: r'' => if tok_is ")" t then parse_trailers f e r'' else Unmodelled
            | [] => Unmodelled
            end
          else if Ascii.eqb c "[" then
            match r with
            | t :: r' =>
                if tok_is "]" t then parse_trailers f (EList []) r'
                else do (l, r'') <- parse_items f "]" r [];
                     parse_trailers f (EList l) r''
            | [] => Unmodelled
            end
          else if Ascii.eqb c "{" then
            match r with
            | t :: r' =>
                if tok_is "}" t then parse_trailers f (EDict []) r'
                else do (l, r'') <- parse_pairs f r [];
                     parse_trailers f (EDict l) r''
            | [] => Unmodelled
            end
          else Unmodelled
      end
  end

with parse_trailers (fuel : nat) (e : expr) (ts : list token)
  : outcome (expr * list token) :=
  match fuel with
  | O => Unmodelled
  | S f =>
      match ts with
      | TPunct c :: r =>
          if Ascii.eqb c "(" then
            match r with
            | t :: r' =>
                if tok_is ")" t then parse_trailers f (ECall e []) r'
                else do (l, r'') <- parse_items f ")" r [];
                     parse_trailers f (ECall e l) r''
            | [] => Unmodelled
            end
          else Returns (e, ts)
      | _ => Returns (e, ts)
      end
  end

with parse_items (fuel : nat) (close : ascii) (ts : list token) (acc : list expr)
  : outcome (list expr * list token) :=
  match fuel with
  | O => Unmodelled
  | S f =>
      do (e, r) <- parse_expr f ts;
      match r with
      | t :: r' =>
          if tok_is close t then Returns ((acc ++ [e])%list, r')
          else if tok_is "," t then
            match r' with
            | t' :: r'' =>
                if tok_is close t' then Returns ((acc ++ [e])%list, r'')
                else parse_items f close r' (acc ++ [e])%list
            | [] => Unmodelled
            end
          else Unmodelled
      | [] => Unmodelled
      end
  end

with parse_pairs (fuel : nat) (ts : list token) (acc : list (expr * expr))
  : outcome (list (expr * expr) * list token) :=
  match fuel with
  | O => Unmodelled
  | S f =>
      do (k, r) <- parse_expr f ts;
      match r with
      | t :: r1 =>
          if tok_is ":" t then
            do (v, r2) <- parse_expr f r1;
            match r2 with
            | t' :: r3 =>
                if tok_is "}" t' then Returns ((acc ++ [(k, v)])%list, r3)
                else if tok_is "," t' then
                  match r3 with
                  | t'' :: r4 =>
                      if tok_is "}" t'' then Returns ((acc ++ [(k, v)])%list, r4)
                      else parse_pairs f r3 (acc ++ [(k, v)])%list
                  | [] => Unmodelled
                  end
                else Unmodelled
            | [] => Unmodelled
            end
          else Unmodelled
      | [] => Unmodelled
      end
  end.

(** A whole source text: one expression and nothing after it.  An
    identifier after a complete expression is a syntax error, as is an
    empty source. *)
Definition parse_source (ts : list token) : outcome expr :=
  match ts with
  | [] => Raises
  | _ =>
      do (e, r) <- parse_expr (5 * List.length ts + 5) ts;
      match r with
      | [] => Returns e
      | TName x :: _ => if is_keyword x then Unmodelled else Raises
      | _ => Unmodelled
      end
  end.

(** The names of the built-in namespace that are modelled. *)
Definition builtins : list (string * pyval) :=
  [("len", VBuiltin "len")].

Fixpoint lookup (x : string) (env : list (string * pyval)) : option pyval :=
  match env with
  | [] => None
  | (y, v) :: env' => if String.eqb x y then Some v else lookup x env'
  end.

(** A name is looked up in the local, the global and then the built-in
    namespace: [eval] adds the built-in namespace to a [globals] mapping
    that has no [__builtins__] entry. *)
Definition resolve (globals locals : list (string * pyval)) (x : string)
  : outcome pyval :=
  match lookup x locals with
  | Some v => Returns v
  | None =>
      match lookup x globals with
      | Some v => Returns v
      | None =>
          match lookup x builtins with
          | Some v => Returns v
          | None => Unmodelled
          end
      end
  end.

Definition call (f : pyval) (args : list pyval) : outcome pyval :=
  match f with
  | VBuiltin name =>
      if String.eqb name "len" then
        match args with
        | [VStr s] => Returns (VInt (Z.of_nat (String.length s)))
        | [VList l] => Returns (VInt (Z.of_nat (List.length l)))
        | [VDict d] => Returns (VInt (Z.of_nat (List.length d)))
        | _ => Raises              (* TypeError *)
        end
      else Unmodelled
  | _ => Raises                    (* TypeError: not callable *)
  end.

(** The mapping of a dict display, from its evaluated items. *)
Fixpoint build_map (items : list (pyval * pyval)) (acc : list (pyval * pyval))
  : outcome pyval :=
  match items with
  | [] => Returns (VDict acc)
  | (k, v) :: items' =>
      match k with
      | VList _ | VDict _ => Raises   (* TypeError: unhashable *)
      | VFloat _ _ _ | VBuiltin _ => Unmodelled
      | _ => build_map items' (dict_set k v acc)
      end
  end.

(** A list of computations, left to right, up to the first that does
    not return. *)
Fixpoint traverse {A B : Type} (f : A -> outcome B) (l : list A)
  : outcome (list B) :=
  match l with
  | [] => Returns []
  | a :: l' => do b <- f a; do bs <- traverse f l'; Returns (b :: bs)
  end.

Section Eval.
Variables globals locals : list (string * pyval).

Fixpoint eval_expr (e : expr) : outcome pyval :=
  match e with
  | ENone => Returns VNone
  | EBool b => Returns (VBool b)
  | ENum v => Returns v
  | EStr s => Returns (VStr s)
  | EName x => resolve globals locals x
  | EList l => do vs <- traverse eval_expr l; Returns (VList vs)
  | EDict l =>
      do items <- traverse (fun '(ke, ve) =>
                              do k <- eval_expr ke;
                              do v <- eval_expr ve; Returns (k, v)) l;
      build_map items []
  | ECall fe args =>
      do f <- eval_expr fe;
      do vs <- traverse eval_expr args;
      call f vs
  | ENot e' => do v <- eval_expr e'; Returns (VBool (negb (truthy v)))
  | ENeg e' =>
      do v <- eval_expr e';
      match v with
      | VInt z => Returns (VInt (- z))
      | VBool b => Returns (VInt (if b then -1 else 0))
      | VFloat neg m ex => Returns (VFloat (negb neg) m ex)
      | _ => Raises              (* TypeError *)
      end
  end.

(** [eval(source, globals, locals)] *)
Definition py_eval (source : string) : outcome pyval :=
  do ts <- tokenize (String.length source) source;
  do e <- parse_source ts;
  eval_expr e.
End Eval.

(** ** The repair function *)

(** [fix_llm_query(raw_query)].  Both parse attempts sit in
    [try ... except Exception: pass]. *)
Definition fix_llm_query (raw_query : pyval) : outcome pyval :=
  match raw_query with
  | VDict d =>
      match dict_get (VStr "find") d with
      | Some (VDict f) => Returns (VDict f)
      | _ => Returns raw_query
      end
  | VStr s =>
      let raw_query := working_string s in
      match json_loads raw_query with
      | Returns v => Returns v
      | Unmodelled => Unmodelled
      | Raises =>
          match py_eval [] [] raw_query with
          | Returns v => Returns v
          | Unmodelled => Unmodelled
          | Raises => Returns (VStr raw_query)
          end
      end
  | _ => Returns raw_query
  end.

(** ** Extraction of the candidate fragment *)

(** [s.strip()] *)
Fixpoint lstrip (s : string) : string :=
  match s with
  | String c s' => if is_space c then lstrip s' else s
  | EmptyString => s
  end.

Fixpoint rstrip (s : string) : string :=
  match s with
  | String c s' =>
      match rstrip s' with
      | EmptyString => if is_space c then EmptyString else String c EmptyString
      | t => String c t
      end
  | EmptyString => EmptyString
  end.

Definition strip (s : string) : string := rstrip (lstrip s).

(** The two searches of [generate_mongodb_query] on the raw response:
    a fenced block, else a brace span, else the whole text. *)
Definition extract_candidate (raw_response : string) : string :=
  match re_search fence_re raw_response with
  | Some cs => group 1 cs
  | None =>
      match re_search brace_span_re raw_response with
      | Some cs => group 1 cs
      | None => raw_response
      end
  end.

(** ** The orchestration *)

(** What the program does to its surroundings.  The texts of the fixed
    messages are kept; a message that embeds a value carries the value. *)
Inductive event : Type :=
| Printed (text : string)
| PrintError (context : string)                (* "... : {e}" of an except branch *)
| PrintQuery (q : pyval)                       (* "Generated MongoDB Query: {q}" *)
| PrintFrame (rows : list pyval)               (* df.to_string() *)
| SaveCsv (filename : string) (rows : list pyval)
| PrintSaved (filename : string)               (* "Data saved to '{filename}'" *)
| LogAppend (user_question : string) (q : pyval)
| StorageFind (q : pyval)                      (* collection.find(q) *)
| Ask (prompt : string).                       (* input(prompt) *)

(** The value [retrieve_and_present_data] returns: [None] or a frame. *)
Inductive presented : Type :=
| NoFrame
| Frame (rows : list pyval).

Section Orchestrator.
(** The generator: the text [llm.invoke] answers for the prompt built
    from the question and the field names, [None] when building the
    prompt or the call raises. *)
Variable llm : string -> list string -> option string.
(** The storage: the documents [collection.find] yields for a filter,
    [None] when the driver raises. *)
Variable collection_find : pyval -> option (list pyval).

(** [generate_mongodb_query(user_input, collection_fields)] *)
Definition generate_mongodb_query (user_input : string)
           (collection_fields : list string) : outcome (list event * pyval) :=
  match llm user_input collection_fields with
  | None => Returns ([PrintError "Error generating query with LLM"], VNone)
  | Some response =>
      let raw_response := strip response in
      let cleaned := extract_candidate raw_response in
      do filter_query <- fix_llm_query (VStr cleaned);
      Returns ([], filter_query)
  end.

(** The text of [print("\nRetrieved Data:")]. *)
Definition retrieved_banner : string := String nl "Retrieved Data:".

Definition drop_id (doc : pyval) : pyval :=
  match doc with
  | VDict d => VDict (filter (fun kv => negb (key_eqb (VStr "_id") (fst kv))) d)
  | _ => doc
  end.

(** [retrieve_and_present_data(..., mongodb_query, output_format,
    output_filename)] *)
Definition retrieve_and_present_data (mongodb_query : pyval)
           (output_format : string) (output_filename : option string)
  : outcome (list event * presented) :=
  do query <- (if isinstance_str mongodb_query
               then fix_llm_query mongodb_query
               else Returns mongodb_query);
  if negb (isinstance_dict query) then
    Returns ([Printed "Error: Generated MongoDB query is not a valid dictionary."],
             NoFrame)
  else
    match collection_find query with
    | None =>
        Returns ([StorageFind query;
                  PrintError "Error retrieving data from MongoDB"], NoFrame)
    | Some [] =>
        Returns ([StorageFind query; Printed "No data found matching the query."],
                 Frame [])
    | Some results =>
        let df := map drop_id results in
        let saving :=
          match output_filename with
          | Some name => if String.eqb name EmptyString then None else Some name
          | None => None
          end in
        if String.eqb output_format "display" then
          Returns ([StorageFind query; Printed retrieved_banner; PrintFrame df],
                   Frame df)
        else
          match String.eqb output_format "save", saving with
          | true, Some name =>
              Returns ([StorageFind query; Printed retrieved_banner;
                        SaveCsv name df; PrintSaved name], Frame df)
          | _, _ =>
              Returns ([StorageFind query; Printed retrieved_banner;
                        Printed "Invalid output format or filename provided."],
                       NoFrame)
          end
    end.

(** [s.lower()] on the modelled range. *)
Definition lower_char (c : ascii) : ascii :=
  if in_range 65 90 c || (in_range 192 222 c && negb (is_char 215 c))
  then chr (code c + 32) else c.

Fixpoint lower (s : string) : string :=
  match s with
  | EmptyString => EmptyString
  | String c s' => String (lower_char c) (lower s')
  end.

(** [input(prompt)] from the lines the user will type; [EOFError] when
    there is none left. *)
Definition input (prompt : string) (lines : list string)
  : outcome (list event * string * list string) :=
  match lines with
  | l :: lines' => Returns ([Ask prompt], l, lines')
  | [] => Raises
  end.

(** The body of the loop of [main] once a question has been read: the
    events, and the lines left to read. *)
Definition answer_question (fields : list string) (user_question : string)
           (lines : list string) : outcome (list event * list string) :=
  do (ev1, generated_query) <- generate_mongodb_query user_question fields;
  if truthy generated_query then
    do (ev2, output_choice, lines1) <-
       input "Choose output format ('display' or 'save'): " lines;
    let output_choice := lower output_choice in
    do (ev3, output_filename, lines2) <-
       (if String.eqb output_choice "save" then
          do (ev, name, ls) <-
             input "Enter the filename for the saved CSV (e.g., output.csv): "
                   lines1;
          Returns (ev, Some name, ls)
        else Returns ([], None, lines1));
    do (ev4, _) <-
       retrieve_and_present_data generated_query output_choice output_filename;
    Returns ((ev1 ++ [PrintQuery generated_query;
                      LogAppend user_question generated_query]
                  ++ ev2 ++ ev3 ++ ev4)%list, lines2)
  else
    Returns ((ev1 ++ [Printed "Failed to generate a query. Please try again."])%list,
             lines).

(** The loop of [main]: questions are read until [exit]. *)
Fixpoint main_loop (fuel : nat) (fields : list string) (lines : list string)
  : outcome (list event) :=
  match fuel with
  | O => Unmodelled
  | S f =>
      do (ev0, user_question, lines0) <-
         input "Enter your data query (or type 'exit' to quit): " lines;
      if String.eqb (lower user_question) "exit" then Returns ev0
      else
        do (ev1, lines1) <- answer_question fields user_question lines0;
        do ev2 <- main_loop f fields lines1;
        Returns (ev0 ++ ev1 ++ ev2)%list
  end.
End Orchestrator.

Definition is_find (e : event) : bool :=
  match e with StorageFind _ => true | _ => false end.

Definition is_log (e : event) : bool :=
  match e with LogAppend _ _ => true | _ => false end.

(** ** Notions used in the statements *)

(** A mapping that has a key [find] bound to a mapping. *)
Definition find_wrapped (v : pyval) : bool :=
  match v with
  | VDict d =>
      match dict_get (VStr "find") d with
      | Some (VDict _) => true
      | _ => false
      end
  | _ => false
  end.

(** The repair applied to its own result. *)
Definition repair_twice (q : pyval) : outcome pyval :=
  do r <- fix_llm_query q; fix_llm_query r.

(** A value built from literals only: no function object inside. *)
Fixpoint is_data (v : pyval) : bool :=
  match v with
  | VList l => forallb is_data l
  | VDict d => forallb (fun '(k, x) => is_data k && is_data x) d
  | VBuiltin _ => false
  | _ => true
  end.



(** The result of [fix_llm_query] on a text, from the outcome of the
    fallback evaluation of its working string. *)
Definition after_fallback (w : string) (o : outcome pyval) : outcome pyval :=
  match o with
  | Returns v => Returns v
  | Unmodelled => Unmodelled
  | Raises => Returns (VStr w)
  end.

(** Induction on expressions, through their lists of operands. *)
Section ExprInduction.
Variable P : expr -> Prop.
Hypothesis HNone : P ENone.
Hypothesis HBool : forall b, P (EBool b).
Hypothesis HNum : forall v, P (ENum v).
Hypothesis HStr : forall s, P (EStr s).
Hypothesis HName : forall x, P (EName x).
Hypothesis HList : forall l, Forall P l -> P (EList l).
Hypothesis HDict :
  forall l, Forall (fun kv => P (fst kv) /\ P (snd kv)) l -> P (EDict l).
Hypothesis HCall : forall f args, P f -> Forall P args -> P (ECall f args).
Hypothesis HNot : forall e, P e -> P (ENot e).
Hypothesis HNeg : forall e, P e -> P (ENeg e).

End ExprInduction.

(** ** Texts and their parts *)

(** Every character of [s] satisfies [p]. *)
Fixpoint all (p : ascii -> bool) (s : string) : bool :=
  match s with
  | EmptyString => true
  | String c s' => p c && all p s'
  end.

(** No character of [s] is [c]. *)
Definition free_of (c : ascii) (s : string) : bool :=
  all (fun d => negb (Ascii.eqb d c)) s.

(** An optional quote: nothing, or one double or single quote. *)
Definition opt_quote (q : string) : Prop :=
  q = EmptyString \/ q = String dquote EmptyString
  \/ q = String squote EmptyString.

(** [matches n r a t cs cs']: the expression [r] accepts the text [a] in
    front of [t], in a subject of length [n], and turns the groups [cs]
    into [cs']. *)
Inductive matches (n : nat)
  : regex -> string -> string -> captures -> captures -> Prop :=
| MLit k c t cs :
    mem k c = true -> matches n (Lit k) (String c EmptyString) t cs cs
| MCat r1 r2 a1 a2 t cs cs1 cs2 :
    matches n r1 a1 (a2 ++ t) cs cs1 -> matches n r2 a2 t cs1 cs2 ->
    matches n (Cat r1 r2) (a1 ++ a2) t cs cs2
| MOptSome r a t cs cs' :
    matches n r a t cs cs' -> matches n (Opt r) a t cs cs'
| MOptNone r t cs : matches n (Opt r) EmptyString t cs cs
| MStar k a t cs : all (mem k) a = true -> matches n (Star k) a t cs cs
| MLazyStar k a t cs : all (mem k) a = true -> matches n (LazyStar k) a t cs cs
| MGroup g r a t cs cs' :
    matches n r a t cs cs' -> matches n (Group g r) a t cs (set_group g a cs')
| MBol t cs : String.length t = n -> matches n Bol EmptyString t cs cs
| MEol t cs :
    t = EmptyString \/ t = String nl EmptyString ->
    matches n Eol EmptyString t cs cs.

(** The text of a [find:] wrapper around a brace-delimited body. *)
Definition find_wrapper_text (ws1 q1 q2 ws2 ws3 body ws4 : string) : string :=
  ws1 ++ q1 ++ "find" ++ q2 ++ ws2 ++ ":" ++ ws3 ++ "{" ++ body ++ "}" ++ ws4.











(** [p] occurs in [s]. *)
Fixpoint contains (p s : string) : bool :=
  starts_with p s ||
  match s with
  | String _ s' => contains p s'
  | EmptyString => false
  end.

(** The expression has no start anchor. *)
Fixpoint bol_free (r : regex) : bool :=
  match r with
  | Bol => false
  | Cat a b => bol_free a && bol_free b
  | Opt a | Group _ a => bol_free a
  | _ => true
  end.




(** The text from the first [c] on. *)
Fixpoint from_first (c : ascii) (s : string) : option string :=
  match s with
  | EmptyString => None
  | String d s' => if Ascii.eqb d c then Some s else from_first c s'
  end.

(** The text up to the last [c]. *)
Fixpoint upto_last (c : ascii) (s : string) : option string :=
  match s with
  | EmptyString => None
  | String d s' =>
      match upto_last c s' with
      | Some p => Some (String d p)
      | None => if Ascii.eqb d c then Some (String d EmptyString) else None
      end
  end.

(** The brace span in the words of the specification: from the first
    opening brace to the last closing brace after it. *)
Definition brace_span (s : string) : option string :=
  match from_first "{" s with
  | Some t => upto_last "}" t
  | None => None
  end.



(** An opening brace that is followed, at least one character later, by
    a closing brace. *)
Definition has_brace_span (s : string) : bool :=
  match from_first "{" s with
  | Some (String _ (String _ t)) => negb (free_of "}" t)
  | _ => false
  end.

(** [s] without its occurrences of [c]. *)
Fixpoint without (c : ascii) (s : string) : string :=
  match s with
  | EmptyString => EmptyString
  | String d s' => if Ascii.eqb d c then without c s' else String d (without c s')
  end.

(** No line of the session is [exit] in any letter case. *)
Definition never_exits (lines : list string) : bool :=
  forallb (fun l => negb (String.eqb (lower l) "exit")) lines.

(** ** Loading the collection and the start of [main] *)

(** What [load_csv_to_mongodb] and [main] print around the loop; the
    events of the loop are carried as they are. *)
Inductive main_event : Type :=
| PrintLoaded (count : nat) (csv_file_path : string)
                               (* "Successfully loaded {n} records from ..." *)
| PrintCsvEmpty (csv_file_path : string)   (* "The CSV file '...' is empty." *)
| PrintLoadError                           (* "Error loading CSV to MongoDB: {e}" *)
| PrintCollectionEmpty                     (* "The collection '...' is empty." *)
| InLoop (e : event).

(** [l.remove(x)] for an [x] that is in [l]: its first occurrence goes. *)
Fixpoint list_remove (x : string) (l : list string) : list string :=
  match l with
  | [] => []
  | y :: l' => if String.eqb y x then l' else y :: list_remove x l'
  end.

(** The field names [main] takes from the first document, whose keys the
    driver delivers as strings, in their order. *)
Definition collection_fields (first_document : list (string * pyval))
  : list string :=
  let fields := map fst first_document in
  if existsb (String.eqb "_id") fields then list_remove "_id" fields else fields.

Section Main.
(** The state of the collection, and what the driver does to it: the new
    state, and [false] when the call raises. *)
Variable store : Type.
Variable delete_many : store -> store * bool.
Variable insert_many : list pyval -> store -> store * bool.
(** [collection.find_one()]: [None] when the driver raises, else the
    first document if there is one. *)
Variable find_one : store -> option (option (list (string * pyval))).
Variable find : store -> pyval -> option (list pyval).
(** [pd.read_csv(path).to_dict(orient='records')], [None] when the file
    cannot be read. *)
Variable read_csv : string -> option (list pyval).
Variable llm : string -> list string -> option string.

(** [load_csv_to_mongodb(csv_file_path, ...)]: the collection is cleared
    before the file is read; every exception ends in one message. *)
Definition load_csv_to_mongodb (csv_file_path : string) (c : store)
  : list main_event * store :=
  match delete_many c with
  | (c1, false) => ([PrintLoadError], c1)
  | (c1, true) =>
      match read_csv csv_file_path with
      | None => ([PrintLoadError], c1)
      | Some [] => ([PrintCsvEmpty csv_file_path], c1)
      | Some data =>
          match insert_many data c1 with
          | (c2, true) => ([PrintLoaded (List.length data) csv_file_path], c2)
          | (c2, false) => ([PrintLoadError], c2)
          end
      end
  end.

(** [main()]: the load, the first document, the field names, the loop.
    A failure of [find_one] is not caught.  The loop reads one line at
    least in every round, so it gets as many rounds as there are lines
    and one more. *)
Definition main (c : store) (lines : list string)
  : outcome (list main_event * store) :=
  let (ev0, c1) := load_csv_to_mongodb "sample_data.csv" c in
  match find_one c1 with
  | None => Raises
  | Some (Some (kv :: first_document)) =>
      let fields := collection_fields (kv :: first_document) in
      do evs <- main_loop llm (find c1) (S (List.length lines)) fields lines;
      Returns ((ev0 ++ map InLoop evs)%list, c1)
  | Some _ => Returns ((ev0 ++ [PrintCollectionEmpty])%list, c1)
  end.
End Main.

(** * Properties *)

(** Closed goals are settled by evaluation, conjunct by conjunct. *)
Ltac conjuncts := repeat match goal with |- _ /\ _ => split end.
Ltac by_evaluation := conjuncts; vm_compute; reflexivity.

(** ** The mapping branch *)

Lemma fix_llm_query_dict (m : list (pyval * pyval)) :
  fix_llm_query (VDict m) =
  match dict_get (VStr "find") m with
  | Some (VDict f) => Returns (VDict f)
  | _ => Returns (VDict m)
  end.
Proof.
  unfold fix_llm_query.
  destruct (dict_get (VStr "find") m) as [[ | | | | | | f | ]|]; reflexivity.
Qed.

(** C5: a mapping with a key [find] bound to a mapping [f] is repaired to
    exactly [f]; a mapping without such a key is returned unchanged. *)
Theorem C5_mapping_unwrapped_or_unchanged (m : list (pyval * pyval)) :
  (forall f, dict_get (VStr "find") m = Some (VDict f) ->
             fix_llm_query (VDict m) = Returns (VDict f)) /\
  ((forall f, dict_get (VStr "find") m <> Some (VDict f)) ->
   fix_llm_query (VDict m) = Returns (VDict m)).
Proof.
  rewrite fix_llm_query_dict. split.
  - intros f H. rewrite H. reflexivity.
  - intros H. destruct (dict_get (VStr "find") m) as [[ | | | | | | f | ]|];
      try reflexivity.
    exfalso. apply (H f). reflexivity.
Qed.

Lemma C5_mapping_witness :
  fix_llm_query (VDict [(VStr "limit", VInt 5);
                        (VStr "find", VDict [(VStr "a", VInt 1)])])
  = Returns (VDict [(VStr "a", VInt 1)]) /\
  fix_llm_query (VDict [(VStr "a", VInt 1); (VStr "find", VInt 3)])
  = Returns (VDict [(VStr "a", VInt 1); (VStr "find", VInt 3)]).
Proof.
  split.
  - apply (proj1 (C5_mapping_unwrapped_or_unchanged _)). reflexivity.
  - apply (proj2 (C5_mapping_unwrapped_or_unchanged _)).
    intros f H. simpl in H. discriminate H.
Defined.

(** C2, as stated, fails: a mapping whose [find] value is itself wrapped
    is returned with one wrapper left. *)
Lemma C2_nested_wrapper_is_returned :
  fix_llm_query
    (VDict [(VStr "find", VDict [(VStr "find", VDict [(VStr "a", VInt 1)])])])
  = Returns (VDict [(VStr "find", VDict [(VStr "a", VInt 1)])]) /\
  find_wrapped (VDict [(VStr "find", VDict [(VStr "a", VInt 1)])]) = true /\
  ~ (forall q r, fix_llm_query q = Returns r -> isinstance_dict r = true ->
                 find_wrapped r = false).
Proof.
  split; [reflexivity | split; [reflexivity | ]].
  intros H.
  specialize (H (VDict [(VStr "find", VDict [(VStr "find", VDict [(VStr "a", VInt 1)])])])
                (VDict [(VStr "find", VDict [(VStr "a", VInt 1)])])
                eq_refl eq_refl).
  discriminate H.
Qed.

(** C2, amended: for a mapping input the repair removes one wrapper, so
    the mapping it returns is free of an outer [find] wrapper whenever the
    [find] value of the input, if a mapping, is not wrapped itself. *)
Theorem C2_mapping_result_not_wrapped (m : list (pyval * pyval)) :
  (forall f, dict_get (VStr "find") m = Some (VDict f) ->
             find_wrapped (VDict f) = false) ->
  exists r, fix_llm_query (VDict m) = Returns (VDict r) /\
            find_wrapped (VDict r) = false.
Proof.
  intros H. rewrite fix_llm_query_dict.
  destruct (dict_get (VStr "find") m) as [v|] eqn:E.
  - destruct v as [ | | | | | | f | ];
      try (exists m; split; [reflexivity | simpl; rewrite E; reflexivity]).
    exists f. split; [reflexivity | apply H; reflexivity].
  - exists m. split; [reflexivity | simpl; rewrite E; reflexivity].
Qed.

Lemma C2_mapping_witness :
  exists r, fix_llm_query (VDict [(VStr "find", VDict [(VStr "a", VInt 1)])])
            = Returns (VDict r) /\ find_wrapped (VDict r) = false.
Proof.
  apply C2_mapping_result_not_wrapped.
  intros f H. simpl in H. injection H as <-. reflexivity.
Defined.

(** The text path does not apply the mapping unwrap to what it parses. *)
Example wrapped_text_stays_wrapped :
  fix_llm_query (VStr (py "{~find~: {~a~: 1}}"))
  = Returns (VDict [(VStr "find", VDict [(VStr "a", VInt 1)])]).
Proof. vm_compute. reflexivity. Qed.

(** C4, as stated, fails: the text of a well-formed mapping that is
    wrapped in [find] twice is still wrapped after the first repair, and
    the second repair removes a wrapper. *)
Lemma C4_second_repair_unwraps :
  json_loads (py "{~find~: {~find~: {~a~: 1}}}")
  = Returns (VDict [(VStr "find", VDict [(VStr "find", VDict [(VStr "a", VInt 1)])])]) /\
  fix_llm_query (VStr (py "{~find~: {~find~: {~a~: 1}}}"))
  = Returns (VDict [(VStr "find", VDict [(VStr "find", VDict [(VStr "a", VInt 1)])])]) /\
  repair_twice (VStr (py "{~find~: {~find~: {~a~: 1}}}"))
  = Returns (VDict [(VStr "find", VDict [(VStr "a", VInt 1)])]) /\
  repair_twice (VStr (py "{~find~: {~find~: {~a~: 1}}}"))
  <> fix_llm_query (VStr (py "{~find~: {~find~: {~a~: 1}}}")).
Proof.
  conjuncts; try (vm_compute; reflexivity).
  vm_compute. intros H. discriminate H.
Qed.

(** C4, amended: for a text that parses as a top-level mapping and whose
    repair is a mapping without an outer [find] wrapper, the second
    application returns the same mapping as the first. *)
Theorem C4_idempotent_on_unwrapped_result
        (s : string) (d r : list (pyval * pyval)) :
  json_loads s = Returns (VDict d) ->
  fix_llm_query (VStr s) = Returns (VDict r) ->
  find_wrapped (VDict r) = false ->
  repair_twice (VStr s) = fix_llm_query (VStr s).
Proof.
  intros _ Hfix Hw. unfold repair_twice. rewrite Hfix. unfold bind.
  rewrite fix_llm_query_dict. simpl in Hw.
  destruct (dict_get (VStr "find") r) as [[ | | | | | | f | ]|];
    try reflexivity. discriminate Hw.
Qed.

Lemma C4_idempotent_witness :
  repair_twice (VStr (py "{~category~: ~Electronics~, ~price~: {~$lt~: 500}}"))
  = fix_llm_query (VStr (py "{~category~: ~Electronics~, ~price~: {~$lt~: 500}}")).
Proof.
  apply (C4_idempotent_on_unwrapped_result _
           [(VStr "category", VStr "Electronics");
            (VStr "price", VDict [(VStr "$lt", VInt 500)])]
           [(VStr "category", VStr "Electronics");
            (VStr "price", VDict [(VStr "$lt", VInt 500)])]);
    vm_compute; reflexivity.
Defined.

(** ** The loop body and the dictionary check *)

Lemma generate_events (llm : string -> list string -> option string)
      (user_input : string) (fields : list string)
      (ev : list event) (q : pyval) :
  generate_mongodb_query llm user_input fields = Returns (ev, q) ->
  existsb is_find ev = false /\ existsb is_log ev = false.
Proof.
  unfold generate_mongodb_query.
  destruct (llm user_input fields) as [response|].
  - destruct (fix_llm_query _); simpl; intros H; inversion H; subst; auto.
  - intros H; inversion H; subst; auto.
Qed.

Lemma existsb_snoc_false {A : Type} (p : A -> bool) (l : list A) (x : A) :
  existsb p l = false -> p x = false -> existsb p (l ++ [x]) = false.
Proof.
  intros Hl Hx. rewrite existsb_app, Hl. simpl. rewrite Hx. reflexivity.
Qed.

(** C10: when the generated value is falsy, the loop body prints that the
    generation failed, reads no further line, writes nothing to the log
    and does not query the storage; the empty mapping is such a value. *)
Theorem C10_falsy_query_is_a_generation_failure
        (llm : string -> list string -> option string)
        (collection_find : pyval -> option (list pyval))
        (fields : list string) (user_question : string) (lines : list string)
        (ev : list event) (q : pyval) :
  generate_mongodb_query llm user_question fields = Returns (ev, q) ->
  truthy q = false ->
  let out := (ev ++ [Printed "Failed to generate a query. Please try again."])%list in
  answer_question llm collection_find fields user_question lines
  = Returns (out, lines) /\
  existsb is_find out = false /\ existsb is_log out = false /\
  truthy (VDict []) = false /\ isinstance_dict (VDict []) = true.
Proof.
  intros Hgen Hq out. split.
  - unfold answer_question. rewrite Hgen. unfold bind. rewrite Hq. reflexivity.
  - destruct (generate_events _ _ _ _ _ Hgen) as [Hf Hl].
    conjuncts; try apply existsb_snoc_false; auto.
Qed.

Lemma C10_empty_mapping_witness :
  answer_question (fun _ _ => Some "{}") (fun _ => Some [VDict [(VStr "a", VInt 1)]])
                  ["a"] "everything" ["display"]
  = Returns ([Printed "Failed to generate a query. Please try again."], ["display"]).
Proof.
  apply (C10_falsy_query_is_a_generation_failure
           (fun _ _ => Some "{}") (fun _ => Some [VDict [(VStr "a", VInt 1)]])
           ["a"] "everything" ["display"] [] (VDict [])).
  - vm_compute. reflexivity.
  - reflexivity.
Defined.

(** C3, as stated, fails: the dictionary check repairs a string once
    more, so a text the repair returned as a string can reach the storage.
    Here both parse attempts fail on the working string, the repair
    returns it, and the check turns it into a filter and runs [find]. *)
Lemma C3_returned_string_reaches_storage :
  json_loads (working_string "{$or, {$lt, 1}}") = Raises /\
  py_eval [] [] (working_string "{$or, {$lt, 1}}") = Raises /\
  fix_llm_query (VStr "{$or, {$lt, 1}}")
  = Returns (VStr (working_string "{$or, {$lt, 1}}")) /\
  retrieve_and_present_data (fun _ => Some [])
    (VStr (working_string "{$or, {$lt, 1}}")) "display" None
  = Returns ([StorageFind (VDict [(VStr "$or", VDict [(VStr "$lt", VInt 1)])]);
              Printed "No data found matching the query."], Frame []).
Proof. by_evaluation. Qed.

(** C3, amended: a text on which both parse attempts fail is returned as
    a string, which is not a mapping; the dictionary check passes a
    mapping unchanged to [find]; a value that is neither a mapping nor a
    string, and a string whose repair is not a mapping, is reported as an
    error without any [find].  The text [not a filter at all] is such a
    string. *)
Theorem C3_garbage_is_rejected
        (collection_find : pyval -> option (list pyval))
        (output_format : string) (output_filename : option string) :
  (forall s, json_loads (working_string s) = Raises ->
             py_eval [] [] (working_string s) = Raises ->
             fix_llm_query (VStr s) = Returns (VStr (working_string s)) /\
             isinstance_dict (VStr (working_string s)) = false) /\
  (forall d, exists evs p,
      retrieve_and_present_data collection_find (VDict d)
                                output_format output_filename
      = Returns (StorageFind (VDict d) :: evs, p)) /\
  (forall q r,
      (if isinstance_str q then fix_llm_query q else Returns q) = Returns r ->
      isinstance_dict r = false ->
      retrieve_and_present_data collection_find q output_format output_filename
      = Returns ([Printed "Error: Generated MongoDB query is not a valid dictionary."],
                 NoFrame)) /\
  fix_llm_query (VStr "not a filter at all") = Returns (VStr "not a filter at all") /\
  retrieve_and_present_data collection_find (VStr "not a filter at all")
                            output_format output_filename
  = Returns ([Printed "Error: Generated MongoDB query is not a valid dictionary."],
             NoFrame).
Proof.
  assert (Hrej : forall q r,
      (if isinstance_str q then fix_llm_query q else Returns q) = Returns r ->
      isinstance_dict r = false ->
      retrieve_and_present_data collection_find q output_format output_filename
      = Returns ([Printed "Error: Generated MongoDB query is not a valid dictionary."],
                 NoFrame)).
  { intros q r Hq Hr. unfold retrieve_and_present_data.
    rewrite Hq. unfold bind. rewrite Hr. reflexivity. }
  split; [ | split; [ | split; [exact Hrej | split]]].
  - intros s Hj He. unfold fix_llm_query. rewrite Hj, He. split; reflexivity.
  - intros d. unfold retrieve_and_present_data. simpl.
    destruct (collection_find (VDict d)) as [[|doc docs]|].
    + eexists; eexists; reflexivity.
    + destruct (String.eqb output_format "display").
      * eexists; eexists; reflexivity.
      * destruct (String.eqb output_format "save");
          destruct output_filename as [name|];
          try destruct (String.eqb name EmptyString);
          eexists; eexists; reflexivity.
    + eexists; eexists; reflexivity.
  - vm_compute. reflexivity.
  - apply (Hrej _ (VStr "not a filter at all")); vm_compute; reflexivity.
Qed.

Lemma C3_garbage_witness :
  fix_llm_query (VStr "find me {$lt 5") = Returns (VStr "find me {$lt 5") /\
  retrieve_and_present_data (fun _ => Some [VDict []]) (VInt 7) "display" None
  = Returns ([Printed "Error: Generated MongoDB query is not a valid dictionary."],
             NoFrame).
Proof.
  destruct (C3_garbage_is_rejected (fun _ => Some [VDict []]) "display" None)
    as [H1 [_ [H3 _]]].
  split.
  - apply (H1 "find me {$lt 5"); vm_compute; reflexivity.
  - apply (H3 (VInt 7) (VInt 7)); reflexivity.
Defined.

(** ** The fallback evaluation *)




Lemma dict_set_data (k v : pyval) (d : list (pyval * pyval)) :
  is_data k = true -> is_data v = true ->
  forallb (fun '(k, x) => is_data k && is_data x) d = true ->
  forallb (fun '(k, x) => is_data k && is_data x) (dict_set k v d) = true.
Proof.
  intros Hk Hv. induction d as [|[k' v'] d IH]; simpl; intros H.
  - rewrite Hk, Hv. reflexivity.
  - apply andb_true_iff in H. destruct H as [H1 H2].
    apply andb_true_iff in H1. destruct H1 as [Hk' Hv'].
    destruct (key_eqb k k'); simpl.
    + rewrite Hk', Hv, H2. reflexivity.
    + rewrite Hk', Hv', IH; auto.
Qed.






(** ** Text *)

Lemma append_nil_r (s : string) : s ++ EmptyString = s.
Proof. induction s as [|c s IH]; simpl; [reflexivity | rewrite IH; reflexivity]. Qed.

Lemma append_assoc (a b c : string) : (a ++ b) ++ c = a ++ (b ++ c).
Proof. induction a as [|x a IH]; simpl; [reflexivity | rewrite IH; reflexivity]. Qed.

Lemma length_append (a b : string) :
  String.length (a ++ b) = String.length a + String.length b.
Proof. induction a as [|x a IH]; simpl; [reflexivity | rewrite IH; reflexivity]. Qed.

Lemma all_append (p : ascii -> bool) (a b : string) :
  all p (a ++ b) = all p a && all p b.
Proof.
  induction a as [|x a IH]; simpl; [reflexivity|].
  rewrite IH, andb_assoc. reflexivity.
Qed.

Lemma substring_prefix (a b : string) :
  substring 0 (String.length a) (a ++ b) = a.
Proof. induction a as [|x a IH]; simpl; [destruct b|rewrite IH]; reflexivity. Qed.

Lemma consumed_append (a t : string) : consumed (a ++ t) t = a.
Proof.
  unfold consumed. rewrite length_append.
  replace (String.length a + String.length t - String.length t)
    with (String.length a) by lia.
  apply substring_prefix.
Qed.

(** ** The matcher and the texts it accepts *)

Section StarLemmas.
Variable R : Type.
Variable p : ascii -> bool.
Variable k : string -> option R.

(** A greedy repetition that is handed more characters of the class
    still finds a success that exists further on. *)
Lemma star_greedy_skip (a b : string) (x : R) :
  all p a = true -> star_greedy p b k = Some x ->
  star_greedy p (a ++ b) k = Some x.
Proof.
  induction a as [|c a IH]; simpl; intros Ha Hb; [exact Hb|].
  apply andb_true_iff in Ha. destruct Ha as [Hc Ha].
  rewrite Hc, (IH Ha Hb). reflexivity.
Qed.

(** When the continuation fails on every suffix, so does the
    repetition. *)
Lemma star_greedy_none (s : string) :
  (forall a t, s = a ++ t -> k t = None) -> star_greedy p s k = None.
Proof.
  induction s as [|c s IH]; simpl; intros H.
  - apply (H EmptyString EmptyString). reflexivity.
  - assert (Hs : star_greedy p s k = None).
    { apply IH. intros a t E. apply (H (String c a) t). simpl. rewrite E. reflexivity. }
    rewrite Hs. destruct (p c); apply (H EmptyString (String c s)); reflexivity.
Qed.

Lemma star_greedy_sound (s : string) (x : R) :
  star_greedy p s k = Some x ->
  exists a t, s = a ++ t /\ all p a = true /\ k t = Some x.
Proof.
  induction s as [|c s IH]; simpl; intros H.
  - exists EmptyString, EmptyString. auto.
  - destruct (p c) eqn:Hc.
    + destruct (star_greedy p s k) as [y|] eqn:Hs.
      * inversion H; subst. destruct (IH eq_refl) as [a [t [E [Ha Hk]]]].
        exists (String c a), t. simpl. rewrite E, Hc, Ha. auto.
      * exists EmptyString, (String c s). auto.
    + exists EmptyString, (String c s). auto.
Qed.

Lemma star_greedy_complete (a t : string) :
  all p a = true -> k t <> None -> star_greedy p (a ++ t) k <> None.
Proof.
  induction a as [|c a IH]; simpl; intros Ha Hk.
  - destruct t as [|d t]; simpl; [exact Hk|].
    destruct (p d); [|exact Hk].
    destruct (star_greedy p t k); [discriminate | exact Hk].
  - apply andb_true_iff in Ha. destruct Ha as [Hc Ha]. rewrite Hc.
    specialize (IH Ha Hk).
    destruct (star_greedy p (a ++ t) k); [discriminate | contradiction].
Qed.


Lemma star_lazy_sound (s : string) (x : R) :
  star_lazy p s k = Some x ->
  exists a t, s = a ++ t /\ all p a = true /\ k t = Some x.
Proof.
  induction s as [|c s IH]; simpl; intros H.
  - destruct (k EmptyString) eqn:E; [|discriminate H].
    exists EmptyString, EmptyString. rewrite E. auto.
  - destruct (k (String c s)) eqn:E.
    + exists EmptyString, (String c s). rewrite E. auto.
    + destruct (p c) eqn:Hc; [|discriminate H].
      destruct (IH H) as [a [t [Es [Ha Hk]]]].
      exists (String c a), t. simpl. rewrite Es, Hc, Ha. auto.
Qed.

Lemma star_lazy_complete (a t : string) :
  all p a = true -> k t <> None -> star_lazy p (a ++ t) k <> None.
Proof.
  induction a as [|c a IH]; intros Ha Hk.
  - simpl. destruct t as [|d t]; simpl.
    + destruct (k EmptyString); [discriminate | contradiction].
    + destruct (k (String d t)); [discriminate | contradiction].
  - simpl in Ha. apply andb_true_iff in Ha. destruct Ha as [Hc Ha].
    simpl. destruct (k (String c (a ++ t))); [discriminate|].
    rewrite Hc. apply IH; auto.
Qed.
End StarLemmas.

(** The matcher only returns what the continuation returns on a text
    the expression accepts. *)
Lemma exec_sound (n : nat) (R : Type) (r : regex) :
  forall (s : string) (cs : captures)
         (k : string -> captures -> option R) (x : R),
    exec n r s cs k = Some x ->
    exists a t cs', s = a ++ t /\ matches n r a t cs cs' /\ k t cs' = Some x.
Proof.
  induction r as [cl | r1 IH1 r2 IH2 | r IH | cl | cl | g r IH | | ];
    intros s cs k x H; simpl in H.
  - destruct s as [|c s]; [discriminate H|].
    destruct (mem cl c) eqn:Hc; [|discriminate H].
    exists (String c EmptyString), s, cs. repeat split; auto. apply MLit; auto.
  - destruct (IH1 _ _ _ _ H) as [a1 [t1 [cs1 [E1 [M1 H1]]]]].
    destruct (IH2 _ _ _ _ H1) as [a2 [t2 [cs2 [E2 [M2 H2]]]]].
    exists (a1 ++ a2), t2, cs2. subst. rewrite append_assoc.
    repeat split; auto. econstructor; eauto.
  - destruct (exec n r s cs k) as [y|] eqn:E.
    + inversion H; subst.
      destruct (IH _ _ _ _ E) as [a [t [cs' [Es [M Hk]]]]].
      exists a, t, cs'. repeat split; auto. apply MOptSome; auto.
    + exists EmptyString, s, cs. repeat split; auto. apply MOptNone.
  - destruct (star_greedy_sound _ _ _ _ _ H) as [a [t [E [Ha Hk]]]].
    exists a, t, cs. repeat split; auto. apply MStar; auto.
  - destruct (star_lazy_sound _ _ _ _ _ H) as [a [t [E [Ha Hk]]]].
    exists a, t, cs. repeat split; auto. apply MLazyStar; auto.
  - destruct (IH _ _ _ _ H) as [a [t [cs' [E [M Hk]]]]].
    exists a, t, (set_group g a cs'). subst. rewrite consumed_append in Hk.
    repeat split; auto. apply MGroup; auto.
  - destruct (Nat.eqb (String.length s) n) eqn:E; [|discriminate H].
    apply Nat.eqb_eq in E.
    exists EmptyString, s, cs. repeat split; auto. apply MBol; auto.
  - exists EmptyString, s, cs. split; [reflexivity|].
    destruct s as [|c [|d s]]; try discriminate H.
    + split; [apply MEol; auto | exact H].
    + destruct (Ascii.eqb c nl) eqn:E; [|discriminate H].
      apply Ascii.eqb_eq in E. subst.
      split; [apply MEol; auto | exact H].
Qed.

(** The matcher finds a success whenever the expression accepts a text
    on which the continuation succeeds. *)
Lemma exec_complete (n : nat) (R : Type) (r : regex) :
  forall (a t : string) (cs cs' : captures)
         (k : string -> captures -> option R),
    matches n r a t cs cs' -> k t cs' <> None ->
    exec n r (a ++ t) cs k <> None.
Proof.
  intros a t cs cs' k M. revert k.
  induction M as [cl c t cs Hc | r1 r2 a1 a2 t cs cs1 cs2 M1 IH1 M2 IH2
                 | r a t cs cs' M IH | r t cs | cl a t cs Ha | cl a t cs Ha
                 | g r a t cs cs' M IH | t cs Hn | t cs Ht];
    intros k Hk; simpl.
  - rewrite Hc. exact Hk.
  - rewrite append_assoc. apply IH1. apply IH2. exact Hk.
  - specialize (IH k Hk). destruct (exec n r (a ++ t) cs k); [discriminate|contradiction].
  - destruct (exec n r t cs k); [discriminate | exact Hk].
  - apply star_greedy_complete; auto.
  - apply star_lazy_complete; auto.
  - apply IH. rewrite consumed_append. exact Hk.
  - rewrite Hn, Nat.eqb_refl. exact Hk.
  - destruct Ht as [-> | ->]; simpl; exact Hk.
Qed.

(** ** Steps of the matcher on an expression in sequence *)

Section ExecSteps.
Variable n : nat.
Variable R : Type.
Implicit Types (r : regex) (cl : cclass) (k : string -> captures -> option R).

Lemma exec_cat_assoc r1 r2 r3 s cs k :
  exec n (Cat (Cat r1 r2) r3) s cs k = exec n (Cat r1 (Cat r2 r3)) s cs k.
Proof. reflexivity. Qed.

Lemma exec_bol r s cs k :
  String.length s = n -> exec n (Cat Bol r) s cs k = exec n r s cs k.
Proof. intros H. simpl. rewrite H, Nat.eqb_refl. reflexivity. Qed.

Lemma exec_lit cl r c s cs k :
  mem cl c = true -> exec n (Cat (Lit cl) r) (String c s) cs k = exec n r s cs k.
Proof. intros H. simpl. rewrite H. reflexivity. Qed.

Lemma exec_lit_fail cl r c s cs k :
  mem cl c = false -> exec n (Cat (Lit cl) r) (String c s) cs k = None.
Proof. intros H. simpl. rewrite H. reflexivity. Qed.

Lemma exec_lit_last cl c s cs k :
  mem cl c = true -> exec n (Lit cl) (String c s) cs k = k s cs.
Proof. intros H. simpl. rewrite H. reflexivity. Qed.

Lemma exec_star_skip cl r a b cs k x :
  all (mem cl) a = true ->
  exec n (Cat (Star cl) r) b cs k = Some x ->
  exec n (Cat (Star cl) r) (a ++ b) cs k = Some x.
Proof. intros Ha Hb. simpl in *. apply star_greedy_skip; assumption. Qed.

Lemma exec_star_stop cl r c s cs k :
  mem cl c = false ->
  exec n (Cat (Star cl) r) (String c s) cs k = exec n r (String c s) cs k.
Proof. intros H. simpl. rewrite H. reflexivity. Qed.

Lemma exec_opt_take cl r c s cs k x :
  mem cl c = true -> exec n r s cs k = Some x ->
  exec n (Cat (Opt (Lit cl)) r) (String c s) cs k = Some x.
Proof. intros Hc H. simpl. rewrite Hc, H. reflexivity. Qed.

Lemma exec_opt_skip cl r c s cs k :
  mem cl c = false ->
  exec n (Cat (Opt (Lit cl)) r) (String c s) cs k = exec n r (String c s) cs k.
Proof. intros Hc. simpl. rewrite Hc. reflexivity. Qed.

Lemma exec_star_back cl r c s cs k :
  (forall a t, s = a ++ t -> exec n r t cs k = None) ->
  exec n (Cat (Star cl) r) (String c s) cs k = exec n r (String c s) cs k.
Proof.
  intros H. simpl. rewrite star_greedy_none by exact H.
  destruct (mem cl c); reflexivity.
Qed.

Lemma exec_group g r1 r2 s cs k :
  exec n (Cat (Group g r1) r2) s cs k =
  exec n r1 s cs (fun t cs' => exec n r2 t (set_group g (consumed s t) cs') k).
Proof. reflexivity. Qed.
End ExecSteps.

(** The end of [find_wrapper_re]: white space up to the end. *)
Lemma exec_space_to_end (n : nat) (s : string) (cs : captures) :
  exec n (Cat (Star CSpace) Eol) s cs (fun _ cs' => Some cs')
  = if all is_space s then Some cs else None.
Proof.
  simpl. induction s as [|c s IH]; [reflexivity|].
  simpl. destruct (is_space c) eqn:Hc; simpl.
  - rewrite IH. destruct (all is_space s) eqn:Hs; [reflexivity|].
    destruct s as [|d s]; [discriminate Hs | reflexivity].
  - destruct s as [|d s]; [|reflexivity].
    destruct (Ascii.eqb c nl) eqn:E; [|reflexivity].
    apply Ascii.eqb_eq in E. subst. discriminate Hc.
Qed.

(** ** Facts on the character classes *)

Lemma space_is_not (c : ascii) :
  is_space c = true ->
  Ascii.eqb c "}" = false /\ Ascii.eqb c "{" = false /\
  Ascii.eqb c "," = false /\ Ascii.eqb c ":" = false /\
  Ascii.eqb c "$" = false /\ Ascii.eqb c "f" = false /\
  Ascii.eqb c "`" = false /\ Ascii.eqb c "j" = false /\
  is_quote c = false /\ is_word c = false.
Proof.
  revert c. intros [[] [] [] [] [] [] [] []]; vm_compute; intros H;
    try discriminate H; repeat split; reflexivity.
Qed.

Lemma mem_quotes (c : ascii) : mem (COneOf [dquote; squote]) c = is_quote c.
Proof. unfold is_quote. simpl. rewrite orb_false_r. reflexivity. Qed.

Lemma all_any (s : string) : all (mem CAny) s = true.
Proof. induction s; simpl; auto. Qed.

Lemma all_suffix (p : ascii -> bool) (s a t : string) :
  all p s = true -> s = a ++ t -> all p t = true.
Proof.
  intros H E. subst. rewrite all_append in H.
  apply andb_true_iff in H. tauto.
Qed.

(** ** The [find:] prefix *)

Lemma find_wrapper_match (ws1 q1 q2 ws2 ws3 body ws4 : string) :
  all is_space ws1 = true -> opt_quote q1 -> opt_quote q2 ->
  all is_space ws2 = true -> all is_space ws3 = true ->
  all is_space ws4 = true ->
  re_match find_wrapper_re (find_wrapper_text ws1 q1 q2 ws2 ws3 body ws4)
  = Some [(1, "{" ++ body ++ "}")].
Proof.
  intros H1 Hq1 Hq2 H2 H3 H4. unfold re_match, find_wrapper_text.
  unfold find_wrapper_re; cbn [seq Str quote_opt].
  rewrite exec_bol by reflexivity.
  apply exec_star_skip; [exact H1|].
  assert (Hfind : forall x,
    exec (String.length (ws1 ++ q1 ++ "find" ++ q2 ++ ws2 ++ ":" ++ ws3 ++ "{" ++ body ++ "}" ++ ws4))
         (Cat (Lit (CChar "f")) (Cat (Lit (CChar "i")) (Cat (Lit (CChar "n"))
           (Cat (Lit (CChar "d")) (Cat (Opt (Lit (COneOf [dquote; squote])))
             (Cat (Star CSpace) (Cat (Lit (CChar ":")) (Cat (Star CSpace)
               (Cat (Group 1 (Cat (Lit (CChar "{")) (Cat (Star CAny) (Lit (CChar "}")))))
                  (Cat (Star CSpace) Eol))))))))))
         ("find" ++ q2 ++ ws2 ++ ":" ++ ws3 ++ "{" ++ body ++ "}" ++ ws4) []
         (fun _ cs => Some cs) = Some x ->
    exec (String.length (ws1 ++ q1 ++ "find" ++ q2 ++ ws2 ++ ":" ++ ws3 ++ "{" ++ body ++ "}" ++ ws4))
         (Cat (Star CSpace) (Cat (Opt (Lit (COneOf [dquote; squote])))
           (Cat (Lit (CChar "f")) (Cat (Lit (CChar "i")) (Cat (Lit (CChar "n"))
           (Cat (Lit (CChar "d")) (Cat (Opt (Lit (COneOf [dquote; squote])))
             (Cat (Star CSpace) (Cat (Lit (CChar ":")) (Cat (Star CSpace)
               (Cat (Group 1 (Cat (Lit (CChar "{")) (Cat (Star CAny) (Lit (CChar "}")))))
                  (Cat (Star CSpace) Eol))))))))))))
         (q1 ++ "find" ++ q2 ++ ws2 ++ ":" ++ ws3 ++ "{" ++ body ++ "}" ++ ws4) []
         (fun _ cs => Some cs) = Some x).
  { intros x Hx. destruct Hq1 as [-> | [-> | ->]]; cbn [append].
    - rewrite exec_star_stop, exec_opt_skip by reflexivity. exact Hx.
    - rewrite exec_star_stop by reflexivity.
      apply exec_opt_take; [reflexivity | exact Hx].
    - rewrite exec_star_stop by reflexivity.
      apply exec_opt_take; [reflexivity | exact Hx]. }
  apply Hfind. clear Hfind. cbn [append].
  rewrite !exec_lit by reflexivity.
  set (n := String.length _).
  assert (Hcolon : forall x,
    exec n (Cat (Lit (CChar ":")) (Cat (Star CSpace)
               (Cat (Group 1 (Cat (Lit (CChar "{")) (Cat (Star CAny) (Lit (CChar "}")))))
                  (Cat (Star CSpace) Eol))))
         (":" ++ ws3 ++ "{" ++ body ++ "}" ++ ws4) [] (fun _ cs => Some cs) = Some x ->
    exec n (Cat (Opt (Lit (COneOf [dquote; squote])))
             (Cat (Star CSpace) (Cat (Lit (CChar ":")) (Cat (Star CSpace)
               (Cat (Group 1 (Cat (Lit (CChar "{")) (Cat (Star CAny) (Lit (CChar "}")))))
                  (Cat (Star CSpace) Eol))))))
         (q2 ++ ws2 ++ ":" ++ ws3 ++ "{" ++ body ++ "}" ++ ws4) [] (fun _ cs => Some cs) = Some x).
  { intros x Hx.
    assert (Hsp : exec n (Cat (Star CSpace) (Cat (Lit (CChar ":")) (Cat (Star CSpace)
               (Cat (Group 1 (Cat (Lit (CChar "{")) (Cat (Star CAny) (Lit (CChar "}")))))
                  (Cat (Star CSpace) Eol)))))
         (ws2 ++ ":" ++ ws3 ++ "{" ++ body ++ "}" ++ ws4) [] (fun _ cs => Some cs) = Some x).
    { apply exec_star_skip; [exact H2|]. cbn [append].
      rewrite exec_star_stop by reflexivity. exact Hx. }
    destruct Hq2 as [-> | [-> | ->]]; cbn [append].
    - destruct ws2 as [|c ws2]; cbn [append] in *.
      + rewrite exec_opt_skip by reflexivity. exact Hsp.
      + simpl in H2. apply andb_true_iff in H2. destruct H2 as [Hc _].
        rewrite exec_opt_skip; [exact Hsp|].
        rewrite mem_quotes. apply space_is_not. exact Hc.
    - apply exec_opt_take; [reflexivity | exact Hsp].
    - apply exec_opt_take; [reflexivity | exact Hsp]. }
  apply Hcolon. clear Hcolon. cbn [append].
  rewrite exec_lit by reflexivity.
  apply exec_star_skip; [exact H3|]. cbn [append].
  rewrite exec_star_stop by reflexivity.
  rewrite exec_group. rewrite exec_lit by reflexivity.
  apply exec_star_skip; [apply all_any|]. cbn [append].
  rewrite exec_star_back.
  - rewrite exec_lit_last by reflexivity.
    rewrite (exec_space_to_end n ws4), H4.
    change (String "{" (body ++ String "}" ws4)) with ("{" ++ body ++ "}" ++ ws4).
    replace ("{" ++ body ++ "}" ++ ws4) with (("{" ++ body ++ "}") ++ ws4)
      by (rewrite !append_assoc; reflexivity).
    rewrite consumed_append. reflexivity.
  - intros a t E. pose proof (all_suffix _ _ _ _ H4 E) as Ht.
    destruct t as [|c t]; [reflexivity|].
    simpl in Ht. apply andb_true_iff in Ht. destruct Ht as [Hc _].
    destruct (space_is_not c Hc) as [Hr _]. simpl. rewrite Hr. reflexivity.
Qed.

Ltac invert_matches :=
  repeat match goal with
  | H : matches _ (Cat _ _) _ _ _ _ |- _ => inversion H; subst; clear H
  | H : matches _ (Lit _) _ _ _ _ |- _ => inversion H; subst; clear H
  | H : matches _ (Star _) _ _ _ _ |- _ => inversion H; subst; clear H
  | H : matches _ (LazyStar _) _ _ _ _ |- _ => inversion H; subst; clear H
  | H : matches _ (Group _ _) _ _ _ _ |- _ => inversion H; subst; clear H
  | H : matches _ Bol _ _ _ _ |- _ => inversion H; subst; clear H
  | H : matches _ Eol _ _ _ _ |- _ => inversion H; subst; clear H
  | H : mem (CChar _) _ = true |- _ => apply Ascii.eqb_eq in H; subst
  end.

Lemma matches_quote_opt (n : nat) (a t : string) (cs cs' : captures) :
  matches n quote_opt a t cs cs' -> opt_quote a /\ cs' = cs.
Proof.
  unfold quote_opt, opt_quote. intros M. inversion M; subst; clear M.
  - invert_matches.
    match goal with H : mem _ _ = true |- _ => simpl in H; rewrite orb_false_r in H;
      apply orb_true_iff in H; destruct H as [H|H]; apply Ascii.eqb_eq in H; subst end;
      auto.
  - auto.
Qed.

(** A text on which [find_wrapper_re] matches is a [find:] wrapper. *)
Lemma find_wrapper_match_inv (s : string) (cs : captures) :
  re_match find_wrapper_re s = Some cs ->
  exists ws1 q1 q2 ws2 ws3 body ws4,
    s = find_wrapper_text ws1 q1 q2 ws2 ws3 body ws4 /\
    all is_space ws1 = true /\ opt_quote q1 /\ opt_quote q2 /\
    all is_space ws2 = true /\ all is_space ws3 = true /\
    all is_space ws4 = true.
Proof.
  unfold re_match. intros H.
  apply exec_sound in H. destruct H as [a [t [cs' [E [M _]]]]].
  unfold find_wrapper_re in M; cbn [seq Str] in M.
  invert_matches.
  repeat match goal with
  | H : matches _ quote_opt _ _ _ _ |- _ =>
      apply matches_quote_opt in H; destruct H as [H ?]; subst
  end.
  match goal with
  | H1 : all _ ?w1 = true, Ha : opt_quote ?q1, Hb : opt_quote ?q2,
    H2 : all _ ?w2 = true, H3 : all _ ?w3 = true, H4 : all _ ?w4 = true,
    Hb' : all (mem CAny) ?b = true, Ht : ?t = EmptyString \/ _
    |- exists _ _ _ _ _ _ _, (_ ++ ?w1 ++ ?q1 ++ _ ++ ?q2 ++ ?w2 ++ _ ++ ?w3 ++ (_ ++ ?b ++ _) ++ ?w4 ++ _) ++ ?t = _ /\ _ =>
      exists w1, q1, q2, w2, w3, b, (w4 ++ t)
  end.
  split; [ | repeat split; auto].
  - unfold find_wrapper_text. rewrite ?append_assoc. simpl.
    rewrite ?append_assoc. reflexivity.
  - change (mem CSpace) with is_space in *. rewrite all_append.
    match goal with H : all _ ?w = true |- all _ ?w && _ = true => rewrite H end.
    match goal with H : _ \/ _ |- _ => destruct H as [-> | ->]; reflexivity end.
Qed.

Lemma unwrap_find_brace (x : string) :
  unwrap_find (String "{" x) = String "{" x.
Proof.
  unfold unwrap_find, re_match, find_wrapper_re, quote_opt; cbn [seq Str].
  rewrite exec_bol by reflexivity.
  rewrite exec_star_stop, exec_opt_skip by reflexivity.
  rewrite !exec_cat_assoc, exec_lit_fail by reflexivity.
  reflexivity.
Qed.

Lemma fix_llm_query_text (s : string) :
  fix_llm_query (VStr s)
  = match json_loads (working_string s) with
    | Returns v => Returns v
    | Unmodelled => Unmodelled
    | Raises => after_fallback (working_string s)
                               (py_eval [] [] (working_string s))
    end.
Proof. reflexivity. Qed.

(** C6: a text that is, as a whole, an optional quoted key [find], a
    colon and a brace-delimited body up to the end (white space allowed
    around the parts) is replaced by the body before the parse; the
    unwrap changes no other text; and [find: {"a": 1}] is repaired to the
    mapping [{"a": 1}]. *)
Theorem C6_find_prefix_unwrapped :
  (forall ws1 q1 q2 ws2 ws3 body ws4,
      all is_space ws1 = true -> opt_quote q1 -> opt_quote q2 ->
      all is_space ws2 = true -> all is_space ws3 = true ->
      all is_space ws4 = true ->
      unwrap_find (find_wrapper_text ws1 q1 q2 ws2 ws3 body ws4)
      = "{" ++ body ++ "}" /\
      fix_llm_query (VStr (find_wrapper_text ws1 q1 q2 ws2 ws3 body ws4))
      = fix_llm_query (VStr ("{" ++ body ++ "}"))) /\
  (forall s, unwrap_find s <> s ->
             exists ws1 q1 q2 ws2 ws3 body ws4,
               s = find_wrapper_text ws1 q1 q2 ws2 ws3 body ws4 /\
               all is_space ws1 = true /\ opt_quote q1 /\ opt_quote q2 /\
               all is_space ws2 = true /\ all is_space ws3 = true /\
               all is_space ws4 = true) /\
  unwrap_find (py "find: {~a~: 1} and more") = py "find: {~a~: 1} and more" /\
  unwrap_find (py "run find: {~a~: 1}") = py "run find: {~a~: 1}" /\
  fix_llm_query (VStr (py "find: {~a~: 1}")) = Returns (VDict [(VStr "a", VInt 1)]).
Proof.
  split; [ | split; [ | by_evaluation]].
  - intros ws1 q1 q2 ws2 ws3 body ws4 H1 Hq1 Hq2 H2 H3 H4.
    assert (U : unwrap_find (find_wrapper_text ws1 q1 q2 ws2 ws3 body ws4)
                = "{" ++ body ++ "}").
    { unfold unwrap_find. rewrite find_wrapper_match by assumption. reflexivity. }
    split; [exact U|].
    rewrite !fix_llm_query_text. unfold working_string.
    rewrite U. cbn [append]. rewrite unwrap_find_brace. reflexivity.
  - intros s Hs. unfold unwrap_find in Hs.
    destruct (re_match find_wrapper_re s) as [cs|] eqn:E.
    + exact (find_wrapper_match_inv s cs E).
    + exfalso. apply Hs. reflexivity.
Qed.

Lemma C6_find_prefix_witness :
  unwrap_find (py " 'find' :|{~a~: {~$gt~: 1}} |") = py "{~a~: {~$gt~: 1}}".
Proof.
  apply (proj1 (proj1 C6_find_prefix_unwrapped
                  " " (String squote EmptyString) (String squote EmptyString)
                  " " (String nl EmptyString)
                  (py "~a~: {~$gt~: 1}") (String " " (String nl EmptyString))
                  eq_refl (or_intror (or_intror eq_refl))
                  (or_intror (or_intror eq_refl)) eq_refl eq_refl eq_refl)).
Defined.

(** ** Texts that differ by a renaming of characters *)

Section Renaming.
Variable f : ascii -> ascii.








Section Results.
Variables R R' : Type.
Variable g : R -> R'.



End Results.



End Renaming.

(** ** Line feeds *)












(** ** The comma-for-colon repair *)

Section ExecLast.
Variable n : nat.
Variable R : Type.
Implicit Types (r : regex) (cl : cclass) (k : string -> captures -> option R).



Lemma exec_group_last g r s cs k :
  exec n (Group g r) s cs k =
  exec n r s cs (fun t cs' => k t (set_group g (consumed s t) cs')).
Proof. reflexivity. Qed.
End ExecLast.

(** Without [^] the matcher does not look at the length of the
    subject. *)
Lemma exec_bol_free (n n' : nat) (R : Type) (r : regex) :
  bol_free r = true ->
  forall (s : string) (cs : captures) (k k' : string -> captures -> option R),
    (forall t cs0, k t cs0 = k' t cs0) ->
    exec n r s cs k = exec n' r s cs k'.
Proof.
  induction r as [cl | r1 IH1 r2 IH2 | r IH | cl | cl | gr r IH | | ];
    simpl; intros Hr s cs k k' Hk.
  - destruct s as [|c s]; [reflexivity|]. rewrite Hk. reflexivity.
  - apply andb_true_iff in Hr. destruct Hr as [Hr1 Hr2].
    apply IH1; [exact Hr1|]. intros t cs0. apply IH2; assumption.
  - rewrite (IH Hr s cs k k' Hk), Hk. reflexivity.
  - induction s as [|c s IHs]; simpl; [apply Hk|]. rewrite IHs, Hk. reflexivity.
  - induction s as [|c s IHs]; simpl; rewrite Hk; [reflexivity|].
    rewrite IHs. reflexivity.
  - apply IH; [exact Hr|]. intros t cs0. apply Hk.
  - discriminate Hr.
  - destruct s as [|c [|d s]]; try reflexivity; rewrite Hk; reflexivity.
Qed.

Lemma match_at_bol_free (n n' : nat) (r : regex) (s : string) :
  bol_free r = true -> match_at n r s = match_at n' r s.
Proof. intros H. unfold match_at. apply exec_bol_free; auto. Qed.

Lemma sub_loop_bol_free (n n' : nat) (r : regex) (t : list titem) (s : string) :
  bol_free r = true ->
  forall skip, sub_loop n r t skip s = sub_loop n' r t skip s.
Proof.
  intros Hr. induction s as [|c s IH]; intros [|skip]; cbn [sub_loop];
    try rewrite (match_at_bol_free n n' r _ Hr); try reflexivity.
  - destruct (match_at n' r (String c s)) as [[cs rest]|].
    + f_equal.
      destruct (String.length (String c s) - String.length rest);
        rewrite IH; reflexivity.
    + rewrite IH. reflexivity.
  - apply IH.
Qed.

(** The characters of a match are passed over. *)
Lemma sub_loop_skip (n : nat) (r : regex) (t : list titem) (a b : string) :
  sub_loop n r t (String.length a) (a ++ b) = sub_loop n r t 0 b.
Proof. induction a as [|c a IH]; [reflexivity | exact IH]. Qed.

(** The scan copies a text in which no match starts. *)
Lemma sub_loop_copy (n : nat) (r : regex) (t : list titem) (pre rest : string) :
  (forall a c b, pre = a ++ String c b -> match_at n r (String c b ++ rest) = None) ->
  sub_loop n r t 0 (pre ++ rest) = pre ++ sub_loop n r t 0 rest.
Proof.
  induction pre as [|c pre IH]; intros H; [reflexivity|].
  pose proof (H EmptyString c pre eq_refl) as H0.
  cbn [append sub_loop] in *. rewrite H0. f_equal. apply IH.
  intros a d b E. apply (H (String c a) d b). simpl. rewrite E. reflexivity.
Qed.

(** The scan at a match [occ]: the template is put in its place and the
    scan resumes after it. *)
Lemma sub_loop_match (n : nat) (r : regex) (t : list titem)
      (c : ascii) (occ rest : string) (cs : captures) :
  match_at n r (String c occ ++ rest) = Some (cs, rest) ->
  sub_loop n r t 0 (String c occ ++ rest) = expand t cs ++ sub_loop n r t 0 rest.
Proof.
  intros H. cbn [append sub_loop]. cbn [append] in H. rewrite H. f_equal.
  cbn [String.length]. rewrite length_append.
  replace (S (String.length occ + String.length rest) - String.length rest)
    with (S (String.length occ)) by lia.
  apply sub_loop_skip.
Qed.



(** A match of [comma_pair_re] starts with a brace, white space, an
    optional quote and the operator prefix. *)
Lemma comma_pair_match_inv (n : nat) (s : string) (m : captures * string) :
  match_at n comma_pair_re s = Some m ->
  exists ws q z, s = String "{" (ws ++ q ++ String "$" z) /\
                 all is_space ws = true /\ opt_quote q.
Proof.
  unfold match_at. intros H.
  apply exec_sound in H. destruct H as [a [t [cs' [E [M _]]]]].
  unfold comma_pair_re, Plus in M; cbn [seq] in M.
  invert_matches.
  repeat match goal with
  | H : matches _ quote_opt _ _ _ _ |- _ =>
      apply matches_quote_opt in H; destruct H as [H ?]; subst
  end.
  change (mem CSpace) with is_space in *.
  match goal with
  | |- exists _ _ _, (_ ++ ?ws ++ ?q ++ (_ ++ ?w) ++ ?z) ++ ?t = _ /\ _ =>
      exists ws, q, (w ++ z ++ t)
  end.
  split; [ | split; assumption].
  rewrite ?append_assoc. simpl. rewrite ?append_assoc. reflexivity.
Qed.



Lemma free_of_suffix (c : ascii) (s a t : string) :
  free_of c s = true -> s = a ++ t -> free_of c t = true.
Proof. unfold free_of. apply all_suffix. Qed.





(** ** The extraction *)

Lemma search_from_skip (n : nat) (r : regex) (pre rest : string) :
  (forall a c b, pre = a ++ String c b -> match_at n r (String c b ++ rest) = None) ->
  search_from n r (pre ++ rest) = search_from n r rest.
Proof.
  induction pre as [|c pre IH]; intros H; [reflexivity|].
  pose proof (H EmptyString c pre eq_refl) as H0.
  cbn [append search_from] in *. rewrite H0. apply IH.
  intros a d b E. apply (H (String c a) d b). simpl. rewrite E. reflexivity.
Qed.

Lemma search_from_none (n : nat) (r : regex) (s : string) :
  (forall a t, s = a ++ t -> match_at n r t = None) ->
  search_from n r s = None.
Proof.
  induction s as [|c s IH]; intros H.
  - simpl. rewrite (H EmptyString EmptyString eq_refl). reflexivity.
  - cbn [search_from]. rewrite (H EmptyString (String c s) eq_refl).
    apply IH. intros a t E. apply (H (String c a) t). simpl. rewrite E. reflexivity.
Qed.

Lemma search_from_here (n : nat) (r : regex) (s : string) (m : captures * string) :
  match_at n r s = Some m -> search_from n r s = Some (fst m).
Proof. intros H. destruct s; simpl; rewrite H; destruct m; reflexivity. Qed.

Lemma contains_suffix (p s a t : string) :
  contains p s = false -> s = a ++ t -> starts_with p t = false.
Proof.
  revert s. induction a as [|c a IH]; intros s H E; subst.
  - destruct t; simpl in H; apply orb_false_iff in H; tauto.
  - simpl in H. apply orb_false_iff in H. destruct H as [_ H].
    exact (IH _ H eq_refl).
Qed.

(** A literal text that is not at the head of the subject fails. *)
Lemma exec_str_fail (n : nat) (R : Type) (p : string) :
  forall (s : string) (cs : captures) (k : string -> captures -> option R),
    starts_with p s = false -> exec n (Str p) s cs k = None.
Proof.
  induction p as [|a p IH]; intros s cs k H; [discriminate H|].
  destruct s as [|c s].
  - destruct p; reflexivity.
  - cbn [starts_with] in H. rewrite Ascii.eqb_sym in H.
    destruct (Ascii.eqb c a) eqn:E.
    + destruct p as [|b p]; [destruct s; discriminate H|].
      change (Str (String a (String b p)))
        with (Cat (Lit (CChar a)) (Str (String b p))).
      rewrite exec_lit by exact E. apply IH. exact H.
    + destruct p as [|b p]; simpl; rewrite E; reflexivity.
Qed.

Lemma fence_needs_backticks (n : nat) (R : Type) (r : regex) (s : string)
      (cs : captures) (k : string -> captures -> option R) :
  starts_with "```" s = false -> exec n (Cat (Str "```") r) s cs k = None.
Proof. intros H. apply (exec_str_fail n R "```"). exact H. Qed.








(** The match of [brace_span_re] at an opening brace: up to the last
    closing brace. *)
Lemma brace_match (n : nat) (mid post : string) :
  mid <> EmptyString -> free_of "}" post = true ->
  match_at n brace_span_re ("{" ++ mid ++ "}" ++ post)
  = Some ([(1, "{" ++ mid ++ "}")], post).
Proof.
  intros Hmid Hpost. destruct mid as [|m0 mid]; [contradiction|].
  unfold match_at, brace_span_re, Plus; cbn [seq append].
  rewrite exec_group_last, exec_lit by reflexivity.
  rewrite exec_cat_assoc, exec_lit by reflexivity.
  apply exec_star_skip; [apply all_any|]. cbn [append].
  rewrite exec_star_back.
  - rewrite exec_lit_last by reflexivity.
    replace (String "{" (String m0 (mid ++ String "}" post)))
      with (("{" ++ String m0 mid ++ "}") ++ post)
      by (cbn [append]; rewrite append_assoc; reflexivity).
    rewrite consumed_append. reflexivity.
  - intros a t E. pose proof (free_of_suffix _ _ _ _ Hpost E) as Ht.
    destruct t as [|c t]; [reflexivity|].
    unfold free_of in Ht. simpl in Ht. apply andb_true_iff in Ht.
    destruct Ht as [Hc _]. apply negb_true_iff in Hc.
    simpl. rewrite Hc. reflexivity.
Qed.

Lemma brace_match_inv (n : nat) (s : string) (m : captures * string) :
  match_at n brace_span_re s = Some m ->
  exists c x y, s = String "{" (String c (x ++ String "}" y)).
Proof.
  unfold match_at. intros H.
  apply exec_sound in H. destruct H as [a [t [cs' [E [M _]]]]].
  unfold brace_span_re, Plus in M; cbn [seq] in M.
  invert_matches.
  match goal with
  | |- exists _ _ _, (_ ++ (String ?c _ ++ ?x) ++ _) ++ ?t = _ =>
      exists c, x, t
  end.
  rewrite ?append_assoc. simpl. rewrite ?append_assoc. reflexivity.
Qed.

Lemma from_first_some (c : ascii) (s t : string) :
  from_first c s = Some t ->
  exists pre t', s = pre ++ String c t' /\ t = String c t' /\ free_of c pre = true.
Proof.
  revert t. induction s as [|d s IH]; simpl; intros t H; [discriminate H|].
  destruct (Ascii.eqb d c) eqn:E.
  - apply Ascii.eqb_eq in E. inversion H; subst.
    exists EmptyString, s. auto.
  - destruct (IH t H) as [pre [t' [E1 [E2 Hf]]]].
    exists (String d pre), t'. subst. repeat split; auto.
    unfold free_of in *. simpl. rewrite E, Hf. reflexivity.
Qed.

Lemma from_first_none (c : ascii) (s : string) :
  from_first c s = None -> free_of c s = true.
Proof.
  induction s as [|d s IH]; simpl; intros H; [reflexivity|].
  destruct (Ascii.eqb d c) eqn:E; [discriminate H|].
  unfold free_of in *. simpl. rewrite E, IH; auto.
Qed.

Lemma upto_last_free (c : ascii) (s : string) :
  free_of c s = true -> upto_last c s = None.
Proof.
  unfold free_of. induction s as [|d s IH]; simpl; intros H; [reflexivity|].
  apply andb_true_iff in H. destruct H as [Hd Hs]. apply negb_true_iff in Hd.
  rewrite (IH Hs), Hd. reflexivity.
Qed.

Lemma upto_last_some (c : ascii) (s : string) :
  free_of c s = false ->
  exists p post, s = p ++ String c post /\ free_of c post = true /\
                 upto_last c s = Some (p ++ String c EmptyString).
Proof.
  induction s as [|d s IH]; intros H; [discriminate H|].
  destruct (free_of c s) eqn:Hs.
  - unfold free_of in H. simpl in H. fold (free_of c s) in H. rewrite Hs in H.
    rewrite andb_true_r in H. apply negb_false_iff in H. pose proof H as Hd.
    apply Ascii.eqb_eq in H. subst d.
    exists EmptyString, s. simpl. rewrite (upto_last_free c s Hs), Hd. auto.
  - destruct (IH eq_refl) as [p [post [E [Hf Hu]]]].
    exists (String d p), post. simpl. rewrite Hu. subst. auto.
Qed.

Lemma free_of_has_no (c : ascii) (x y : string) :
  free_of c (x ++ String c y) = false.
Proof.
  unfold free_of. rewrite all_append. simpl. rewrite Ascii.eqb_refl. simpl.
  apply andb_false_r.
Qed.

(** The span of a text with a brace span, and the parts around it. *)
Lemma has_brace_span_parts (s : string) :
  has_brace_span s = true ->
  exists pre mid post,
    s = pre ++ "{" ++ mid ++ "}" ++ post /\ free_of "{" pre = true /\
    mid <> EmptyString /\ free_of "}" post = true /\
    brace_span s = Some ("{" ++ mid ++ "}").
Proof.
  unfold has_brace_span, brace_span. intros H.
  destruct (from_first "{" s) as [t|] eqn:E; [|discriminate H].
  destruct (from_first_some _ _ _ E) as [pre [t' [Es [Et Hpre]]]]. subst t.
  destruct t' as [|c0 t2]; [discriminate H|].
  apply negb_true_iff in H.
  destruct (upto_last_some "}" t2 H) as [p [post [E2 [Hpost Hu]]]].
  exists pre, (String c0 p), post.
  split; [subst; reflexivity|]. split; [exact Hpre|].
  split; [discriminate|]. split; [exact Hpost|].
  cbn [upto_last]. rewrite Hu. reflexivity.
Qed.

Lemma fence_search_none (s : string) :
  contains "```" s = false -> re_search fence_re s = None.
Proof.
  intros H. unfold re_search. apply search_from_none. intros a t E.
  unfold match_at, fence_re; cbn [seq]. apply fence_needs_backticks.
  exact (contains_suffix _ _ _ _ H E).
Qed.

Lemma brace_search_none (s : string) :
  has_brace_span s = false -> re_search brace_span_re s = None.
Proof.
  intros H. unfold re_search. apply search_from_none. intros a t E.
  destruct (match_at (String.length s) brace_span_re t) as [m|] eqn:Em;
    [|reflexivity].
  exfalso. apply brace_match_inv in Em. destruct Em as [c [x [y Et]]]. subst.
  unfold has_brace_span in H.
  destruct (from_first "{" (a ++ String "{" (String c (x ++ String "}" y))))
    as [u|] eqn:Eu.
  - destruct (from_first_some _ _ _ Eu) as [pre [t' [E1 [E2 Hpre]]]]. subst u.
    (* the first brace is at or before the one of the match *)
    assert (Hsuf : exists z, t' = z ++ String c (x ++ String "}" y)).
    { clear H Eu. revert a E1. induction pre as [|d pre IH]; intros a E1.
      - destruct a as [|e a]; cbn [append] in E1; inversion E1; subst.
        + exists EmptyString. reflexivity.
        + exists (a ++ "{"). rewrite append_assoc. reflexivity.
      - destruct a as [|e a]; cbn [append] in E1; inversion E1; subst.
        + unfold free_of in Hpre. simpl in Hpre. discriminate Hpre.
        + unfold free_of in Hpre. simpl in Hpre. apply andb_true_iff in Hpre.
          apply (IH (proj2 Hpre) a). assumption. }
    destruct Hsuf as [z Hz]. subst t'.
    destruct z as [|z0 z]; cbn [append] in H.
    + rewrite free_of_has_no in H. discriminate H.
    + assert (Hno : free_of "}" (z ++ String c (x ++ String "}" y)) = false).
      { replace (z ++ String c (x ++ String "}" y))
          with ((z ++ String c x) ++ String "}" y)
          by (rewrite append_assoc; reflexivity).
        apply free_of_has_no. }
      rewrite Hno in H. discriminate H.
  - apply from_first_none in Eu. rewrite free_of_has_no in Eu. discriminate Eu.
Qed.

Lemma brace_search_some (pre mid post : string) :
  free_of "{" pre = true -> mid <> EmptyString -> free_of "}" post = true ->
  re_search brace_span_re (pre ++ "{" ++ mid ++ "}" ++ post)
  = Some [(1, "{" ++ mid ++ "}")].
Proof.
  intros Hpre Hmid Hpost. unfold re_search.
  rewrite search_from_skip.
  - rewrite (search_from_here _ _ _ _ (brace_match _ mid post Hmid Hpost)).
    reflexivity.
  - intros a c b E. pose proof (free_of_suffix _ _ _ _ Hpre E) as Hc.
    unfold free_of in Hc. simpl in Hc. apply andb_true_iff in Hc.
    destruct Hc as [Hc _]. apply negb_true_iff in Hc.
    unfold match_at, brace_span_re; cbn [seq append].
    rewrite exec_group_last. apply exec_lit_fail. exact Hc.
Qed.






(** * Further properties *)

(** ** Trailing commas *)

Lemma closer_is_not (c : ascii) :
  mem (COneOf ["}"; "]"]%char) c = true ->
  is_space c = false /\ Ascii.eqb c "," = false.
Proof.
  destruct c as [[] [] [] [] [] [] [] []]; intros H; try discriminate H;
    split; reflexivity.
Qed.

Lemma trailing_comma_match (n : nat) (ws : string) (c : ascii) (rest : string) :
  all is_space ws = true -> mem (COneOf ["}"; "]"]%char) c = true ->
  match_at n trailing_comma_re (String "," (ws ++ String c EmptyString) ++ rest)
  = Some ([(1, ws ++ String c EmptyString)], rest).
Proof.
  intros Hws Hc. unfold match_at, trailing_comma_re; cbn [seq append].
  rewrite exec_lit by reflexivity.
  rewrite exec_group_last.
  rewrite append_assoc.
  apply exec_star_skip; [exact Hws | ].
  cbn [append].
  rewrite exec_star_stop by (apply (closer_is_not c Hc)).
  rewrite exec_lit_last by exact Hc.
  replace (ws ++ String c rest) with ((ws ++ String c EmptyString) ++ rest)
    by (rewrite append_assoc; reflexivity).
  rewrite consumed_append. reflexivity.
Qed.

Lemma trailing_comma_match_inv (n : nat) (s : string) (cs : captures)
      (rest : string) :
  match_at n trailing_comma_re s = Some (cs, rest) ->
  exists ws c, s = String "," (ws ++ String c EmptyString) ++ rest /\
               cs = [(1, ws ++ String c EmptyString)] /\
               all is_space ws = true /\
               mem (COneOf ["}"; "]"]%char) c = true.
Proof.
  unfold match_at. intros H.
  apply exec_sound in H. destruct H as [a [t [cs' [E [M K]]]]].
  unfold trailing_comma_re in M; cbn [seq] in M.
  invert_matches.
  injection K as K1 K2. subst.
  match goal with
  | H : all _ ?ws = true, H' : mem _ ?c = true |- _ =>
      exists ws, c; repeat split; [exact H | exact H']
  end.
Qed.

Lemma without_append (c : ascii) (a b : string) :
  without c (a ++ b) = without c a ++ without c b.
Proof.
  induction a as [|d a IH]; cbn [append without]; [reflexivity | ].
  rewrite IH. destruct (Ascii.eqb d c); reflexivity.
Qed.

Lemma without_free (c : ascii) (s : string) :
  free_of c s = true -> without c s = s.
Proof.
  unfold free_of. induction s as [|d s IH]; cbn [all without]; [reflexivity | ].
  intros H. apply andb_true_iff in H. destruct H as [Hd Hs].
  apply negb_true_iff in Hd. rewrite Hd, (IH Hs). reflexivity.
Qed.

Lemma closing_run_free (ws : string) (c : ascii) :
  all is_space ws = true -> mem (COneOf ["}"; "]"]%char) c = true ->
  free_of "," (ws ++ String c EmptyString) = true.
Proof.
  intros Hws Hc. unfold free_of. rewrite all_append. apply andb_true_iff. split.
  - induction ws as [|d ws IH]; [reflexivity | ].
    cbn [all] in Hws |- *. apply andb_true_iff in Hws. destruct Hws as [Hd Hws].
    rewrite (IH Hws), andb_true_r.
    destruct (space_is_not d Hd) as (_ & _ & E & _). rewrite E. reflexivity.
  - cbn [all]. destruct (closer_is_not c Hc) as [_ E]. rewrite E. reflexivity.
Qed.

(** What [re.sub] does with the trailing-comma pattern on any text, one
    step of the scan at a time. *)
Lemma trailing_comma_step (n : nat) (s : string) :
  (exists ws c rest,
      s = String "," (ws ++ String c EmptyString) ++ rest /\
      all is_space ws = true /\ mem (COneOf ["}"; "]"]%char) c = true /\
      sub_loop n trailing_comma_re trailing_comma_template 0 s
      = (ws ++ String c EmptyString)
        ++ sub_loop n trailing_comma_re trailing_comma_template 0 rest) \/
  (match_at n trailing_comma_re s = None).
Proof.
  destruct (match_at n trailing_comma_re s) as [[cs rest]|] eqn:E;
    [left | right; reflexivity].
  destruct (trailing_comma_match_inv n s cs rest E) as (ws & c & Hs & Hcs & Hws & Hc).
  exists ws, c, rest. repeat split; try assumption.
  subst s cs.
  rewrite (sub_loop_match n trailing_comma_re trailing_comma_template ","
             (ws ++ String c EmptyString) rest _ E).
  cbn [trailing_comma_template expand group Nat.eqb].
  rewrite append_nil_r. reflexivity.
Qed.

Lemma sub_loop_trailing_commas (n : nat) (m : nat) :
  forall s, String.length s <= m ->
    without "," (sub_loop n trailing_comma_re trailing_comma_template 0 s)
    = without "," s /\
    String.length (sub_loop n trailing_comma_re trailing_comma_template 0 s)
    <= String.length s.
Proof.
  induction m as [|m IH]; intros s Hlen.
  - destruct s; [ | cbn in Hlen; lia]. split; reflexivity.
  - destruct (trailing_comma_step n s) as [(ws & c & rest & Hs & Hws & Hc & E) | E].
    + rewrite E. subst s.
      assert (Hr : String.length rest <= m).
      { cbn [String.length append] in Hlen. rewrite length_append in Hlen. lia. }
      destruct (IH rest Hr) as [IH1 IH2].
      split.
      * cbn [append without Ascii.eqb]. rewrite !without_append, IH1.
        replace (Ascii.eqb "," ",") with true by reflexivity. reflexivity.
      * cbn [append String.length]. rewrite !length_append. lia.
    + destruct s as [|d s]; [split; reflexivity | ].
      cbn [sub_loop]. rewrite E.
      assert (Hr : String.length s <= m) by (cbn in Hlen; lia).
      destruct (IH s Hr) as [IH1 IH2].
      split.
      * cbn [without]. rewrite IH1. reflexivity.
      * cbn [String.length]. lia.
Qed.

Lemma strip_trailing_commas_copy (n : nat) (pre rest : string) :
  free_of "," pre = true ->
  sub_loop n trailing_comma_re trailing_comma_template 0 (pre ++ rest)
  = pre ++ sub_loop n trailing_comma_re trailing_comma_template 0 rest.
Proof.
  intros Hpre. apply sub_loop_copy. intros a c b E.
  pose proof (free_of_suffix _ _ _ _ Hpre E) as Hc.
  unfold free_of in Hc; cbn [all] in Hc.
  apply andb_true_iff in Hc. destruct Hc as [Hc _]. apply negb_true_iff in Hc.
  unfold match_at, trailing_comma_re; cbn [seq append].
  apply exec_lit_fail. exact Hc.
Qed.

(** X1: the third repair step removes the first comma that is followed,
    after optional white space, by a closing brace or bracket; the text
    before it is copied and the scan goes on behind the closer.  With it
    the text [{"a": 1,}] is repaired and parsed. *)
Theorem strip_trailing_commas_leftmost
        (pre ws : string) (c : ascii) (rest : string) :
  free_of "," pre = true -> all is_space ws = true ->
  mem (COneOf ["}"; "]"]%char) c = true ->
  strip_trailing_commas (pre ++ "," ++ ws ++ String c rest)
  = pre ++ ws ++ String c (strip_trailing_commas rest) /\
  strip_trailing_commas (py "{~a~: 1,}") = py "{~a~: 1}" /\
  fix_llm_query (VStr (py "{~a~: 1,}")) = Returns (VDict [(VStr "a", VInt 1)]).
Proof.
  intros Hpre Hws Hc. conjuncts; [ | vm_compute; reflexivity ..].
  unfold strip_trailing_commas, re_sub.
  set (n := String.length _).
  rewrite strip_trailing_commas_copy by exact Hpre. f_equal.
  pose proof (trailing_comma_match n ws c rest Hws Hc) as Hm.
  replace ("," ++ ws ++ String c rest)
    with (String "," (ws ++ String c EmptyString) ++ rest)
    by (cbn [append]; rewrite append_assoc; reflexivity).
  rewrite (sub_loop_match n trailing_comma_re trailing_comma_template ","
             (ws ++ String c EmptyString) rest _ Hm).
  rewrite (sub_loop_bol_free n (String.length rest)) by reflexivity.
  cbn [trailing_comma_template expand group Nat.eqb].
  rewrite append_nil_r, append_assoc. reflexivity.
Qed.

Lemma strip_trailing_commas_leftmost_witness :
  strip_trailing_commas (py "{~a~: [1 , ], ~b~: 3 ,|}")
  = py "{~a~: [1 " ++ " " ++ String "]" (strip_trailing_commas (py ", ~b~: 3 ,|}")).
Proof.
  refine (proj1 (strip_trailing_commas_leftmost (py "{~a~: [1 ") " " "]"
                   (py ", ~b~: 3 ,|}") _ _ _)); reflexivity.
Defined.

(** X2: the third repair step deletes commas and nothing else: without
    its commas the text is the same before and after, and it never gets
    longer; a text without a comma is returned as it is. *)
Theorem strip_trailing_commas_deletes_commas_only (s : string) :
  without "," (strip_trailing_commas s) = without "," s /\
  String.length (strip_trailing_commas s) <= String.length s /\
  (free_of "," s = true -> strip_trailing_commas s = s).
Proof.
  unfold strip_trailing_commas, re_sub.
  destruct (sub_loop_trailing_commas (String.length s) (String.length s) s
              (le_n _)) as [H1 H2].
  split; [exact H1 | split; [exact H2 | ]].
  intros Hs.
  pose proof (strip_trailing_commas_copy (String.length s) s EmptyString Hs) as H.
  rewrite append_nil_r in H. rewrite H. cbn. apply append_nil_r.
Qed.

Lemma strip_trailing_commas_deletes_commas_only_witness :
  free_of "," (py "{~a~: 1}") = true /\
  strip_trailing_commas (py "{~a~: 1}") = py "{~a~: 1}".
Proof.
  split; [reflexivity | ].
  apply (strip_trailing_commas_deletes_commas_only (py "{~a~: 1}")). reflexivity.
Defined.

(** ** The other repair steps *)

(** X3: the second repair step rewrites nothing in a text without a
    dollar sign, or without an opening brace. *)
Theorem fix_comma_pairs_needs_operator (s : string) :
  free_of "$" s = true \/ free_of "{" s = true -> fix_comma_pairs s = s.
Proof.
  intros Hs. unfold fix_comma_pairs, re_sub.
  pose proof (sub_loop_copy (String.length s) comma_pair_re comma_pair_template
                            s EmptyString) as H.
  rewrite append_nil_r in H. rewrite H; [cbn; apply append_nil_r | ].
  intros a c b E. rewrite append_nil_r.
  destruct (match_at (String.length s) comma_pair_re (String c b)) as [m|] eqn:M;
    [exfalso | reflexivity].
  destruct (comma_pair_match_inv _ _ _ M) as (ws & q & z & Eq & _ & _).
  destruct Hs as [Hs | Hs]; pose proof (free_of_suffix _ _ _ _ Hs E) as Hf;
    rewrite Eq in Hf.
  - change (String "{" (ws ++ q ++ String "$" z))
      with ("{" ++ ws ++ q ++ String "$" z) in Hf.
    rewrite <- !append_assoc in Hf.
    rewrite free_of_has_no in Hf. discriminate Hf.
  - discriminate Hf.
Qed.

Lemma fix_comma_pairs_needs_operator_witness :
  fix_comma_pairs (py "{~price~: {~lt~, 4.5}}") = py "{~price~: {~lt~, 4.5}}".
Proof.
  apply (fix_comma_pairs_needs_operator (py "{~price~: {~lt~, 4.5}}")).
  left. reflexivity.
Defined.

Lemma replace_newlines_free (s : string) : free_of nl (replace_newlines s) = true.
Proof.
  unfold free_of. induction s as [|c s IH]; [reflexivity | ].
  cbn [replace_newlines]. destruct (Ascii.eqb c nl) eqn:E; cbn [all];
    rewrite IH, andb_true_r; [reflexivity | rewrite E; reflexivity].
Qed.

(** X4: the text handed to the two parsers never contains a line feed,
    and neither does the text that is returned when both parsers
    fail. *)
Theorem working_string_has_no_line_feed (s : string) :
  free_of nl (working_string s) = true /\
  (json_loads (working_string s) = Raises ->
   py_eval [] [] (working_string s) = Raises ->
   exists t, fix_llm_query (VStr s) = Returns (VStr t) /\ free_of nl t = true).
Proof.
  assert (H : free_of nl (working_string s) = true)
    by (unfold working_string; apply replace_newlines_free).
  split; [exact H | ].
  intros Hj He. exists (working_string s). split; [ | exact H].
  rewrite fix_llm_query_text, Hj, He. reflexivity.
Qed.

Lemma working_string_has_no_line_feed_witness :
  exists t, fix_llm_query (VStr (py "no|filter|here")) = Returns (VStr t) /\
            free_of nl t = true.
Proof.
  apply (working_string_has_no_line_feed (py "no|filter|here")); reflexivity.
Defined.

(** X5: the first repair step is idempotent: what it returns is either
    the text it was given or a text that begins with an opening brace,
    and such a text is no wrapper.  A wrapper inside the braces stays. *)
Theorem unwrap_find_idempotent (s : string) :
  unwrap_find (unwrap_find s) = unwrap_find s /\
  (unwrap_find s = s \/ exists body, unwrap_find s = "{" ++ body ++ "}").
Proof.
  destruct (re_match find_wrapper_re s) as [cs|] eqn:E.
  - destruct (find_wrapper_match_inv s cs E)
      as (ws1 & q1 & q2 & ws2 & ws3 & body & ws4 & Hs & H1 & Hq1 & Hq2 & H2 & H3 & H4).
    assert (U : unwrap_find s = "{" ++ body ++ "}").
    { unfold unwrap_find. rewrite Hs.
      rewrite (find_wrapper_match ws1 q1 q2 ws2 ws3 body ws4 H1 Hq1 Hq2 H2 H3 H4).
      reflexivity. }
    rewrite U. split; [apply unwrap_find_brace | right; exists body; reflexivity].
  - assert (U : unwrap_find s = s) by (unfold unwrap_find; rewrite E; reflexivity).
    rewrite !U. split; [reflexivity | left; reflexivity].
Qed.

(** ** The candidate fragment *)

Lemma starts_with_append (p b : string) : starts_with p (p ++ b) = true.
Proof.
  induction p as [|c p IH]; [reflexivity | ].
  cbn [append starts_with]. rewrite Ascii.eqb_refl, IH. reflexivity.
Qed.

Lemma contains_part (p a b : string) : contains p (a ++ p ++ b) = true.
Proof.
  induction a as [|c a IH].
  - cbn [append]. destruct (p ++ b) eqn:E; cbn [contains]; rewrite <- E;
      rewrite starts_with_append; reflexivity.
  - cbn [append contains]. rewrite IH. apply orb_true_r.
Qed.

Lemma search_from_sound (n : nat) (r : regex) (s : string) (cs : captures) :
  search_from n r s = Some cs ->
  exists a t rest, s = a ++ t /\ match_at n r t = Some (cs, rest).
Proof.
  induction s as [|c s IH]; cbn [search_from];
    destruct (match_at n r _) as [[cs0 rest]|] eqn:M; intros H.
  - injection H as H; subst. exists EmptyString, EmptyString, rest. split; [reflexivity | exact M].
  - discriminate H.
  - injection H as H; subst. exists EmptyString, (String c s), rest.
    split; [reflexivity | exact M].
  - destruct (IH H) as (a & t & rest & Hs & Ht).
    exists (String c a), t, rest. split; [rewrite Hs; reflexivity | exact Ht].
Qed.

Lemma fence_match_inv (n : nat) (t : string) (cs : captures) (rest : string) :
  match_at n fence_re t = Some (cs, rest) ->
  exists x c body y, t = x ++ String c body ++ y /\ group 1 cs = String c body.
Proof.
  unfold match_at. intros H.
  apply exec_sound in H. destruct H as [a [t' [cs' [E [M K]]]]].
  unfold fence_re, LazyPlus in M; cbn [seq Str] in M.
  invert_matches.
  injection K as K1 K2. subst.
  match goal with
  | |- exists _ _ _ _, ((?f ++ ?j ++ ?w ++ (String ?c EmptyString ++ ?b) ++ ?e) ++ ?t = _) /\ _ =>
      exists (f ++ j ++ w), c, b, (e ++ t)
  end.
  split; [ | reflexivity].
  rewrite ?append_assoc. cbn [append]. rewrite ?append_assoc. reflexivity.
Qed.

Lemma brace_span_match_inv (n : nat) (t : string) (cs : captures) (rest : string) :
  match_at n brace_span_re t = Some (cs, rest) ->
  exists body, t = String "{" body ++ rest /\ group 1 cs = String "{" body.
Proof.
  unfold match_at. intros H.
  apply exec_sound in H. destruct H as [a [t' [cs' [E [M K]]]]].
  unfold brace_span_re, Plus in M; cbn [seq] in M.
  invert_matches.
  injection K as K1 K2. subst.
  eexists. split; reflexivity.
Qed.

(** X6: the candidate taken from the response is always a part of the
    response, in one piece, and it is empty only when the response is
    empty. *)
Theorem extract_candidate_is_part (raw : string) :
  contains (extract_candidate raw) raw = true /\
  (raw = EmptyString \/ 0 < String.length (extract_candidate raw)).
Proof.
  unfold extract_candidate, re_search.
  destruct (search_from _ fence_re raw) as [cs|] eqn:F.
  - destruct (search_from_sound _ _ _ _ F) as (a & t & rest & Hs & M).
    destruct (fence_match_inv _ _ _ _ M) as (x & c & body & y & Ht & G).
    rewrite G. split; [ | right; cbn [String.length]; lia].
    rewrite Hs, Ht, <- append_assoc. apply contains_part.
  - destruct (search_from _ brace_span_re raw) as [cs|] eqn:B.
    + destruct (search_from_sound _ _ _ _ B) as (a & t & rest & Hs & M).
      destruct (brace_span_match_inv _ _ _ _ M) as (body & Ht & G).
      rewrite G. split; [ | right; cbn [String.length]; lia].
      rewrite Hs, Ht. apply contains_part.
    + split; [ | destruct raw; [left; reflexivity | right; cbn [String.length]; lia]].
      pose proof (contains_part raw EmptyString EmptyString) as H.
      cbn [append] in H. rewrite append_nil_r in H. exact H.
Qed.

(** ** Retrieval and presentation *)



Ltac in_cases H :=
  cbn [In] in H; repeat destruct H as [H | H]; try discriminate H;
  try contradiction.

(** X7: the storage is read at most once in a call, and only with a
    mapping: the query as given, or the result of its second repair when
    it was a text.  A file is written only for the format [save] with a
    file name that is not empty. *)
Theorem retrieve_reads_once_and_saves_on_request
        (collection_find : pyval -> option (list pyval))
        (q : pyval) (output_format : string) (output_filename : option string)
        (evs : list event) (p : presented) :
  retrieve_and_present_data collection_find q output_format output_filename
  = Returns (evs, p) ->
  (forall x, In (StorageFind x) evs ->
             isinstance_dict x = true /\
             (if isinstance_str q then fix_llm_query q else Returns q) = Returns x) /\
  List.length (filter is_find evs) <= 1 /\
  (forall name rows, In (SaveCsv name rows) evs ->
                     output_format = "save" /\ output_filename = Some name /\
                     name <> EmptyString).
Proof.
  unfold retrieve_and_present_data. intros H.
  destruct (if isinstance_str q then fix_llm_query q else Returns q)
    as [query| |] eqn:Q; cbn [bind] in H; try discriminate H.
  destruct (isinstance_dict query) eqn:D; cbn [negb] in H;
    [destruct (collection_find query) as [[|r results]|] eqn:F;
     [ | cbv zeta in H;
         destruct (String.eqb output_format "display") eqn:Ed;
         [ | destruct (String.eqb output_format "save") eqn:Es;
             [destruct output_filename as [name0|];
              [destruct (String.eqb name0 EmptyString) eqn:En | ] | ]] | ] | ];
    injection H as <- <-.
  all: split; [intros x Hx; in_cases Hx; injection Hx as <-; split; first [assumption | reflexivity] | ].
  all: split; [cbn [filter is_find List.length]; lia | ].
  all: intros name rows Hx; in_cases Hx.
  injection Hx as <- <-.
  apply String.eqb_eq in Es. apply String.eqb_neq in En.
  repeat split; assumption.
Qed.


Lemma retrieve_reads_once_and_saves_on_request_witness :
  List.length
    (filter is_find
       [StorageFind (VDict [(VStr "a", VInt 1)]); Printed retrieved_banner;
        SaveCsv "out.csv" [VDict [(VStr "a", VInt 1)]]; PrintSaved "out.csv"])
  <= 1.
Proof.
  refine (proj1 (proj2 (retrieve_reads_once_and_saves_on_request
           (fun _ => Some [VDict [(VStr "_id", VInt 7); (VStr "a", VInt 1)]])
           (VDict [(VStr "a", VInt 1)]) "save" (Some "out.csv")
           _ (Frame [VDict [(VStr "a", VInt 1)]]) _))).
  vm_compute. reflexivity.
Defined.


(** ** One round of the loop *)

Lemma retrieve_never_logs
      (collection_find : pyval -> option (list pyval))
      (q : pyval) (output_format : string) (output_filename : option string)
      (evs : list event) (p : presented) :
  retrieve_and_present_data collection_find q output_format output_filename
  = Returns (evs, p) ->
  existsb is_log evs = false.
Proof.
  unfold retrieve_and_present_data. intros H.
  destruct (if isinstance_str q then fix_llm_query q else Returns q)
    as [query| |]; cbn [bind] in H; try discriminate H.
  destruct (isinstance_dict query); cbn [negb] in H;
    [destruct (collection_find query) as [[|r results]|];
     [ | cbv zeta in H;
         destruct (String.eqb output_format "display");
         [ | destruct (String.eqb output_format "save");
             [destruct output_filename as [name0|];
              [destruct (String.eqb name0 EmptyString) | ] | ]] | ] | ];
    injection H as <- <-; reflexivity.
Qed.

(** X9: a generated value that counts as true is printed and written to
    the log, once, before anything else happens in the round: before the
    format is asked and before the storage is read, also when the value
    is then rejected.  The round reads one line, or two when the format
    is [save] in any letter case. *)
Theorem truthy_query_is_logged_first
        (llm : string -> list string -> option string)
        (collection_find : pyval -> option (list pyval))
        (fields : list string) (user_question : string) (lines : list string)
        (ev : list event) (q : pyval) (evs : list event) (lines' : list string) :
  generate_mongodb_query llm user_question fields = Returns (ev, q) ->
  truthy q = true ->
  answer_question llm collection_find fields user_question lines
  = Returns (evs, lines') ->
  exists choice after,
    evs = (ev ++ PrintQuery q :: LogAppend user_question q :: after)%list /\
    existsb is_log ev = false /\ existsb is_find ev = false /\
    existsb is_log after = false /\
    (if String.eqb (lower choice) "save"
     then exists name, lines = choice :: name :: lines'
     else lines = choice :: lines').
Proof.
  intros G T H.
  destruct (generate_events llm user_question fields ev q G) as [Gf Gl].
  unfold answer_question in H. rewrite G in H. cbn [bind] in H. rewrite T in H.
  destruct lines as [|choice lines1]; cbn [input bind] in H; [discriminate H | ].
  exists choice.
  destruct (String.eqb (lower choice) "save") eqn:S.
  - destruct lines1 as [|name lines2]; cbn [input bind] in H; [discriminate H | ].
    destruct (retrieve_and_present_data _ _ _ _) as [[ev4 p]| |] eqn:R;
      cbn [bind] in H; try discriminate H.
    injection H as <- <-.
    eexists. split; [reflexivity | ]. repeat split; try assumption.
    + cbn [app existsb is_log orb]. exact (retrieve_never_logs _ _ _ _ _ _ R).
    + exists name. reflexivity.
  - cbn [bind] in H.
    destruct (retrieve_and_present_data _ _ _ _) as [[ev4 p]| |] eqn:R;
      cbn [bind] in H; try discriminate H.
    injection H as <- <-.
    eexists. split; [reflexivity | ]. repeat split; try assumption.
    cbn [app existsb is_log orb]. exact (retrieve_never_logs _ _ _ _ _ _ R).
Qed.

Lemma truthy_query_is_logged_first_witness :
  exists choice after,
    [PrintQuery (VInt 2); LogAppend "how many" (VInt 2); Ask "Choose output format ('display' or 'save'): ";
     Printed "Error: Generated MongoDB query is not a valid dictionary."]
    = ([] ++ PrintQuery (VInt 2) :: LogAppend "how many" (VInt 2) :: after)%list /\
    existsb is_log [] = false /\ existsb is_find [] = false /\
    existsb is_log after = false /\
    (if String.eqb (lower choice) "save"
     then exists name, ["Display"; "exit"] = choice :: name :: ["exit"]
     else ["Display"; "exit"] = choice :: ["exit"]).
Proof.
  apply (truthy_query_is_logged_first
           (fun _ _ => Some (py "len(~ab~)")) (fun _ => Some [])
           ["a"] "how many" ["Display"; "exit"] [] (VInt 2)).
  - vm_compute. reflexivity.
  - reflexivity.
  - vm_compute. reflexivity.
Defined.

Lemma lower_char_idempotent (c : ascii) : lower_char (lower_char c) = lower_char c.
Proof. destruct c as [[] [] [] [] [] [] [] []]; reflexivity. Qed.

Lemma lower_idempotent (s : string) : lower (lower s) = lower s.
Proof.
  induction s as [|c s IH]; [reflexivity | ].
  cbn [lower]. rewrite lower_char_idempotent, IH. reflexivity.
Qed.

(** X10: the letter case of the chosen format never matters: once a
    query has been generated, the round does the same for a choice and
    for the choice in small letters. *)
Theorem output_choice_ignores_case
        (llm : string -> list string -> option string)
        (collection_find : pyval -> option (list pyval))
        (fields : list string) (user_question : string)
        (choice : string) (lines : list string)
        (ev : list event) (q : pyval) :
  generate_mongodb_query llm user_question fields = Returns (ev, q) ->
  truthy q = true ->
  answer_question llm collection_find fields user_question (choice :: lines)
  = answer_question llm collection_find fields user_question
                    (lower choice :: lines).
Proof.
  intros G T. unfold answer_question. rewrite G. cbn [bind]. rewrite T.
  cbn [input bind]. rewrite lower_idempotent. reflexivity.
Qed.

Lemma output_choice_ignores_case_witness :
  answer_question (fun _ _ => Some (py "{~a~: 1}")) (fun _ => Some [])
                  ["a"] "all" ["SAVE"; "out.csv"]
  = answer_question (fun _ _ => Some (py "{~a~: 1}")) (fun _ => Some [])
                    ["a"] "all" [lower "SAVE"; "out.csv"].
Proof.
  apply (output_choice_ignores_case
           (fun _ _ => Some (py "{~a~: 1}")) (fun _ => Some [])
           ["a"] "all" "SAVE" ["out.csv"] [] (VDict [(VStr "a", VInt 1)])).
  - vm_compute. reflexivity.
  - reflexivity.
Defined.

(** ** The loop *)

Lemma answer_question_lines
      (llm : string -> list string -> option string)
      (collection_find : pyval -> option (list pyval))
      (fields : list string) (user_question : string) (lines : list string)
      (evs : list event) (lines' : list string) :
  answer_question llm collection_find fields user_question lines
  = Returns (evs, lines') ->
  exists used, lines = (used ++ lines')%list.
Proof.
  unfold answer_question. intros H.
  destruct (generate_mongodb_query llm user_question fields) as [[ev q]| |];
    cbn [bind] in H; try discriminate H.
  destruct (truthy q).
  - destruct lines as [|choice lines1]; cbn [input bind] in H; [discriminate H | ].
    destruct (String.eqb (lower choice) "save").
    + destruct lines1 as [|name lines2]; cbn [input bind] in H; [discriminate H | ].
      destruct (retrieve_and_present_data _ _ _ _) as [[ev4 p]| |];
        cbn [bind] in H; try discriminate H.
      injection H as <- <-. exists [choice; name]. reflexivity.
    + cbn [bind] in H.
      destruct (retrieve_and_present_data _ _ _ _) as [[ev4 p]| |];
        cbn [bind] in H; try discriminate H.
      injection H as <- <-. exists [choice]. reflexivity.
  - injection H as <- <-. exists []. reflexivity.
Qed.

Lemma never_exits_suffix (used lines : list string) :
  never_exits (used ++ lines) = true -> never_exits lines = true.
Proof.
  unfold never_exits. rewrite forallb_app. intros H.
  apply andb_true_iff in H. apply H.
Qed.

Lemma main_loop_fuel
      (llm : string -> list string -> option string)
      (collection_find : pyval -> option (list pyval))
      (fields : list string) :
  forall fuel fuel' lines,
    List.length lines < fuel -> List.length lines < fuel' ->
    main_loop llm collection_find fuel fields lines
    = main_loop llm collection_find fuel' fields lines.
Proof.
  induction fuel as [|fuel IH]; intros fuel' lines H H'; [lia | ].
  destruct fuel' as [|fuel']; [lia | ].
  cbn [main_loop].
  destruct lines as [|l lines0]; cbn [input bind]; [reflexivity | ].
  destruct (String.eqb (lower l) "exit"); [reflexivity | ].
  destruct (answer_question llm collection_find fields l lines0)
    as [[ev1 lines1]| |] eqn:A; cbn [bind]; try reflexivity.
  destruct (answer_question_lines _ _ _ _ _ _ _ A) as [used U].
  assert (L : List.length lines1 <= List.length lines0)
    by (rewrite U, length_app; lia).
  cbn [List.length] in H, H'.
  rewrite (IH fuel' lines1) by lia. reflexivity.
Qed.

Lemma main_loop_needs_exit
      (llm : string -> list string -> option string)
      (collection_find : pyval -> option (list pyval))
      (fields : list string) :
  forall fuel lines evs,
    never_exits lines = true ->
    main_loop llm collection_find fuel fields lines <> Returns evs.
Proof.
  induction fuel as [|fuel IH]; intros lines evs N H; [discriminate H | ].
  cbn [main_loop] in H.
  destruct lines as [|l lines0]; cbn [input bind] in H; [discriminate H | ].
  pose proof N as N0. unfold never_exits in N0. cbn [forallb] in N0.
  apply andb_true_iff in N0. destruct N0 as [Nl N0]. apply negb_true_iff in Nl.
  rewrite Nl in H.
  destruct (answer_question llm collection_find fields l lines0)
    as [[ev1 lines1]| |] eqn:A; cbn [bind] in H; try discriminate H.
  destruct (answer_question_lines _ _ _ _ _ _ _ A) as [used U].
  assert (N1 : never_exits lines1 = true).
  { apply (never_exits_suffix used). rewrite <- U. exact N0. }
  destruct (main_loop llm collection_find fuel fields lines1) as [ev2| |] eqn:M;
    cbn [bind] in H; try discriminate H.
  exact (IH lines1 ev2 N1 M).
Qed.

(** X11: the loop ends in the ordinary way only through [exit]: a
    line that is [exit] in any letter case ends it at once, with nothing
    generated, logged or read; and when no line of the input is [exit]
    the loop does not return, however many rounds it is given (the
    input runs out and [input] raises).  A round reads a line at least,
    so more rounds than there are lines, and one more, change nothing. *)
Theorem loop_ends_only_through_exit
        (llm : string -> list string -> option string)
        (collection_find : pyval -> option (list pyval))
        (fields : list string) :
  (forall fuel l lines,
      lower l = "exit" ->
      exists prompt,
        main_loop llm collection_find (S fuel) fields (l :: lines)
        = Returns [Ask prompt]) /\
  (forall fuel lines evs,
      never_exits lines = true ->
      main_loop llm collection_find fuel fields lines <> Returns evs) /\
  (forall fuel fuel' lines,
      List.length lines < fuel -> List.length lines < fuel' ->
      main_loop llm collection_find fuel fields lines
      = main_loop llm collection_find fuel' fields lines).
Proof.
  split; [ | split; [exact (main_loop_needs_exit llm collection_find fields)
                    | exact (main_loop_fuel llm collection_find fields)]].
  intros fuel l lines E. eexists. cbn [main_loop input bind]. rewrite E.
  reflexivity.
Qed.

Lemma loop_ends_only_through_exit_witness :
  (exists prompt,
      main_loop (fun _ _ => Some (py "{~a~: 1}")) (fun _ => Some []) 1 ["a"]
                ["ExIt"; "more"] = Returns [Ask prompt]) /\
  main_loop (fun _ _ => Some (py "{~a~: 1}")) (fun _ => Some []) 3 ["a"]
            ["all"; "display"] <> Returns [] /\
  main_loop (fun _ _ => Some (py "{~a~: 1}")) (fun _ => Some []) 3 ["a"]
            ["all"; "display"]
  = main_loop (fun _ _ => Some (py "{~a~: 1}")) (fun _ => Some []) 5 ["a"]
              ["all"; "display"].
Proof.
  pose proof (loop_ends_only_through_exit
                (fun _ _ => Some (py "{~a~: 1}")) (fun _ => Some []) ["a"])
    as [H1 [H2 H3]].
  split; [apply H1; reflexivity | split; [apply H2; reflexivity | ]].
  apply H3; cbn [List.length]; lia.
Defined.




(** ** Loading the collection and the start of the session *)

Lemma list_remove_filter (x : string) (l : list string) :
  NoDup l ->
  list_remove x l = filter (fun k => negb (String.eqb k x)) l.
Proof.
  induction l as [|y l IH]; intros N; [reflexivity | ].
  inversion N as [|y' l' Hy Nl]; subst.
  cbn [list_remove filter]. destruct (String.eqb y x) eqn:E; cbn [negb].
  - apply String.eqb_eq in E. subst y.
    clear IH N Nl. induction l as [|z l IH]; [reflexivity | ].
    cbn [filter]. destruct (String.eqb z x) eqn:Z; cbn [negb].
    + apply String.eqb_eq in Z. subst z. exfalso. apply Hy. left. reflexivity.
    + rewrite <- IH; [reflexivity | ]. intros H. apply Hy. right. exact H.
  - rewrite (IH Nl). reflexivity.
Qed.

Lemma filter_absent (x : string) (l : list string) :
  existsb (String.eqb x) l = false ->
  filter (fun k => negb (String.eqb k x)) l = l.
Proof.
  induction l as [|y l IH]; [reflexivity | ].
  cbn [existsb filter]. intros H. apply orb_false_iff in H. destruct H as [H1 H2].
  rewrite String.eqb_sym, H1. cbn [negb]. rewrite (IH H2). reflexivity.
Qed.

Lemma collection_fields_filter (first_document : list (string * pyval)) :
  NoDup (map fst first_document) ->
  collection_fields first_document
  = filter (fun k => negb (String.eqb k "_id")) (map fst first_document).
Proof.
  intros N. unfold collection_fields.
  destruct (existsb (String.eqb "_id") (map fst first_document)) eqn:X.
  - apply list_remove_filter. exact N.
  - symmetry. apply filter_absent. exact X.
Qed.

Lemma collection_fields_no_id (first_document : list (string * pyval)) :
  NoDup (map fst first_document) -> ~ In "_id" (collection_fields first_document).
Proof.
  intros N. rewrite (collection_fields_filter _ N).
  intros H. apply filter_In in H. destruct H as [_ H].
  rewrite String.eqb_refl in H. discriminate H.
Qed.

(** X13: the field names given to the generator are the keys of the
    first document in their order, without [_id] (the keys of a document
    are distinct). *)
Theorem collection_fields_drop_id (first_document : list (string * pyval)) :
  NoDup (map fst first_document) ->
  collection_fields first_document
  = filter (fun k => negb (String.eqb k "_id")) (map fst first_document) /\
  ~ In "_id" (collection_fields first_document) /\
  (forall k, k <> "_id" -> In k (map fst first_document) ->
             In k (collection_fields first_document)).
Proof.
  intros N. split; [exact (collection_fields_filter _ N) | split].
  - exact (collection_fields_no_id _ N).
  - rewrite (collection_fields_filter _ N). intros k Hk Hi. apply filter_In. split; [exact Hi | ].
    apply negb_true_iff. apply String.eqb_neq. exact Hk.
Qed.

Lemma collection_fields_drop_id_witness :
  collection_fields [("name", VStr "pen"); ("_id", VInt 7); ("price", VInt 2)]
  = filter (fun k => negb (String.eqb k "_id"))
           (map fst [("name", VStr "pen"); ("_id", VInt 7); ("price", VInt 2)]).
Proof.
  apply (collection_fields_drop_id
           [("name", VStr "pen"); ("_id", VInt 7); ("price", VInt 2)]).
  repeat constructor; cbn [In]; intros H;
    repeat destruct H as [H | H]; try discriminate H; exact H.
Defined.

Lemma generate_mongodb_query_ext
      (llm llm' : string -> list string -> option string)
      (user_input : string) (fields : list string) :
  llm user_input fields = llm' user_input fields ->
  generate_mongodb_query llm user_input fields
  = generate_mongodb_query llm' user_input fields.
Proof. unfold generate_mongodb_query. intros ->. reflexivity. Qed.

Lemma main_loop_ext
      (llm llm' : string -> list string -> option string)
      (collection_find : pyval -> option (list pyval)) (fields : list string) :
  (forall q, llm q fields = llm' q fields) ->
  forall fuel lines,
    main_loop llm collection_find fuel fields lines
    = main_loop llm' collection_find fuel fields lines.
Proof.
  intros E. induction fuel as [|fuel IH]; intros lines; [reflexivity | ].
  cbn [main_loop]. destruct (input _ lines) as [[[ev0 l] lines0]| |];
    cbn [bind]; try reflexivity.
  destruct (String.eqb (lower l) "exit"); [reflexivity | ].
  unfold answer_question.
  rewrite (generate_mongodb_query_ext llm llm' l fields (E l)).
  destruct (generate_mongodb_query llm' l fields) as [[ev1 q]| |];
    cbn [bind]; try reflexivity.
  destruct (truthy q); cbn [bind].
  - destruct (input _ lines0) as [[[ev2 choice] lines1]| |];
      cbn [bind]; try reflexivity.
    destruct (String.eqb (lower choice) "save"); cbn [bind].
    + destruct (input _ lines1) as [[[ev3 name] lines2]| |];
        cbn [bind]; try reflexivity.
      destruct (retrieve_and_present_data _ _ _ _) as [[ev4 p]| |];
        cbn [bind]; try reflexivity.
      rewrite IH. reflexivity.
    + destruct (retrieve_and_present_data _ _ _ _) as [[ev4 p]| |];
        cbn [bind]; try reflexivity.
      rewrite IH. reflexivity.
  - rewrite IH. reflexivity.
Qed.

Section MainProperties.
Variable store : Type.
Variable delete_many : store -> store * bool.
Variable insert_many : list pyval -> store -> store * bool.
Variable find_one : store -> option (option (list (string * pyval))).
Variable find : store -> pyval -> option (list pyval).
Variable read_csv : string -> option (list pyval).

(** X14: the loader clears the collection before it reads the file.  It
    prints one message; the state it leaves is the cleared one, or the
    cleared one after the insertion of the records, which happens only
    for a file that was read and has records; and the success message
    gives the number of records of an insertion that did not raise.  In
    particular a file that cannot be read leaves the collection
    cleared. *)
Theorem load_clears_before_it_reads (csv_file_path : string) (c : store) :
  let out := load_csv_to_mongodb store delete_many insert_many read_csv
                                 csv_file_path c in
  let c1 := fst (delete_many c) in
  (exists e, fst out = [e]) /\
  (snd out = c1 \/
   exists data, snd (delete_many c) = true /\
                read_csv csv_file_path = Some data /\ data <> [] /\
                snd out = fst (insert_many data c1)) /\
  (forall n p, In (PrintLoaded n p) (fst out) ->
               exists data, read_csv csv_file_path = Some data /\
                            n = List.length data /\ 0 < n /\ p = csv_file_path /\
                            insert_many data c1 = (snd out, true)) /\
  (snd (delete_many c) = true -> read_csv csv_file_path = None ->
   out = ([PrintLoadError], c1)).
Proof.
  unfold load_csv_to_mongodb.
  destruct (delete_many c) as [c1 [|]]; cbn [fst snd];
    [destruct (read_csv csv_file_path) as [[|r data]|];
     [ | destruct (insert_many (r :: data) c1) as [c2 [|]] eqn:I | ] | ];
    cbn [fst snd]; conjuncts.
  all: try (eexists; reflexivity).
  all: try (intros n p H; in_cases H).
  all: try (intros H1 H2; first [discriminate H1 | discriminate H2 | reflexivity]).
  all: try (left; reflexivity).
  - right. exists (r :: data). rewrite I. conjuncts; try reflexivity. discriminate.
  - injection H as <- <-. exists (r :: data).
    conjuncts; try reflexivity; [cbn [List.length]; lia | exact I].
  - right. exists (r :: data). rewrite I. conjuncts; try reflexivity. discriminate.
Qed.

Lemma load_events (csv_file_path : string) (c : store) :
  forall e,
    In e (fst (load_csv_to_mongodb store delete_many insert_many read_csv
                                   csv_file_path c)) ->
    match e with
    | PrintLoaded _ _ | PrintCsvEmpty _ | PrintLoadError => True
    | _ => False
    end.
Proof.
  unfold load_csv_to_mongodb. intros e.
  destruct (delete_many c) as [c1 [|]];
    [destruct (read_csv csv_file_path) as [[|r data]|];
     [ | destruct (insert_many (r :: data) c1) as [c2 [|]] | ] | ];
    cbn [fst In]; intros [<- | []]; exact I.
Qed.

(** X15: [main] leaves the collection as the loader left it, and the
    session takes one of two courses.  Without a first document, or
    with an empty one, it says that the collection is empty and asks
    nothing.  Otherwise the loop runs, and when [main] returns a line of
    the input was [exit]. *)
Theorem main_asks_only_with_a_first_document
        (llm : string -> list string -> option string)
        (c : store) (lines : list string)
        (evs : list main_event) (c' : store) :
  main store delete_many insert_many find_one find read_csv llm c lines
  = Returns (evs, c') ->
  c' = snd (load_csv_to_mongodb store delete_many insert_many read_csv
                                "sample_data.csv" c) /\
  ((In PrintCollectionEmpty evs /\ (forall e, ~ In (InLoop e) evs) /\
    (find_one c' = Some None \/ find_one c' = Some (Some []))) \/
   (~ In PrintCollectionEmpty evs /\ never_exits lines = false /\
    exists kv first_document, find_one c' = Some (Some (kv :: first_document)))).
Proof.
  unfold main. intros H.
  pose proof (load_events "sample_data.csv" c) as L.
  destruct (load_csv_to_mongodb _ _ _ _ _ c) as [ev0 c1].
  cbn [fst snd] in L |- *.
  assert (Empty : forall out, Returns ((ev0 ++ [PrintCollectionEmpty])%list, c1)
                              = Returns (out, c') ->
                  (find_one c1 = Some None \/ find_one c1 = Some (Some [])) ->
                  c' = c1 /\
                  (In PrintCollectionEmpty out /\ (forall e, ~ In (InLoop e) out) /\
                   (find_one c' = Some None \/ find_one c' = Some (Some [])))).
  { intros out E F. injection E as <- <-. split; [reflexivity | ].
    split; [apply in_or_app; right; left; reflexivity | split; [ | exact F]].
    intros e Hi. apply in_app_or in Hi. destruct Hi as [Hi | [Hi | []]].
    - exact (L _ Hi).
    - discriminate Hi. }
  destruct (find_one c1) as [[[|kv first_document]|]|] eqn:F; try discriminate H.
  - destruct (Empty evs H) as [E1 E2]; [right; reflexivity | ].
    split; [exact E1 | left; exact E2].
  - destruct (main_loop _ _ _ _ lines) as [out| |] eqn:M; cbn [bind] in H;
      try discriminate H.
    injection H as <- <-. split; [reflexivity | right].
    split; [ | split].
    + intros Hi. apply in_app_or in Hi. destruct Hi as [Hi | Hi].
      * exact (L _ Hi).
      * apply in_map_iff in Hi. destruct Hi as [e [Hi _]]. discriminate Hi.
    + destruct (never_exits lines) eqn:N; [ | reflexivity].
      exfalso. exact (main_loop_needs_exit _ _ _ _ _ _ N M).
    + exists kv, first_document. exact F.
  - destruct (Empty evs H) as [E1 E2]; [left; reflexivity | ].
    split; [exact E1 | left; exact E2].
Qed.

(** X16: the generator is never given [_id] as a field name: two
    generators that agree on the lists of field names without [_id]
    give the same run of [main] (the keys of a document are
    distinct). *)
Theorem main_never_names_id
        (llm llm' : string -> list string -> option string)
        (c : store) (lines : list string) :
  (forall s first_document,
      find_one s = Some (Some first_document) ->
      NoDup (map fst first_document)) ->
  (forall q fields, ~ In "_id" fields -> llm q fields = llm' q fields) ->
  main store delete_many insert_many find_one find read_csv llm c lines
  = main store delete_many insert_many find_one find read_csv llm' c lines.
Proof.
  intros N E. unfold main.
  destruct (load_csv_to_mongodb _ _ _ _ _ c) as [ev0 c1].
  destruct (find_one c1) as [[[|kv first_document]|]|] eqn:F; try reflexivity.
  rewrite (main_loop_ext llm llm' (find c1)
             (collection_fields (kv :: first_document))); [reflexivity | ].
  intros q. apply E. apply collection_fields_no_id. exact (N _ _ F).
Qed.
End MainProperties.

Lemma load_clears_before_it_reads_witness :
  load_csv_to_mongodb (list pyval) (fun _ => ([], true))
                      (fun data c => ((c ++ data)%list, true)) (fun _ => None)
                      "sample_data.csv" [VDict [(VStr "name", VStr "pen")]]
  = ([PrintLoadError], []).
Proof.
  pose proof (load_clears_before_it_reads
                (list pyval) (fun _ => ([], true))
                (fun data c => ((c ++ data)%list, true)) (fun _ => None)
                "sample_data.csv" [VDict [(VStr "name", VStr "pen")]]) as H.
  cbv zeta in H. destruct H as (_ & _ & _ & H). apply H; reflexivity.
Defined.

Lemma main_asks_only_with_a_first_document_witness :
  [] = snd (load_csv_to_mongodb (list pyval) (fun _ => ([], true))
                                (fun data c => ((c ++ data)%list, true))
                                (fun _ => None) "sample_data.csv"
                                [VDict [(VStr "name", VStr "pen")]]).
Proof.
  refine (proj1 (main_asks_only_with_a_first_document
                   (list pyval) (fun _ => ([], true))
                   (fun data c => ((c ++ data)%list, true))
                   (fun _ => Some None) (fun _ _ => Some []) (fun _ => None)
                   (fun _ _ => None) [VDict [(VStr "name", VStr "pen")]]
                   ["all"] [PrintLoadError; PrintCollectionEmpty] [] _)).
  reflexivity.
Defined.

Lemma main_never_names_id_witness :
  main (list pyval) (fun _ => ([], true)) (fun data c => ((c ++ data)%list, true))
       (fun _ => Some (Some [("_id", VInt 1); ("name", VStr "pen")]))
       (fun _ _ => Some []) (fun _ => Some [VDict [(VStr "name", VStr "pen")]])
       (fun _ fields => if existsb (String.eqb "_id") fields
                        then None else Some (py "{~name~: ~pen~}"))
       [] ["all"; "display"; "exit"]
  = main (list pyval) (fun _ => ([], true)) (fun data c => ((c ++ data)%list, true))
         (fun _ => Some (Some [("_id", VInt 1); ("name", VStr "pen")]))
         (fun _ _ => Some []) (fun _ => Some [VDict [(VStr "name", VStr "pen")]])
         (fun _ _ => Some (py "{~name~: ~pen~}"))
         [] ["all"; "display"; "exit"].
Proof.
  apply (main_never_names_id
           (list pyval) (fun _ => ([], true))
           (fun data c => ((c ++ data)%list, true))
           (fun _ => Some (Some [("_id", VInt 1); ("name", VStr "pen")]))
           (fun _ _ => Some []) (fun _ => Some [VDict [(VStr "name", VStr "pen")]])).
  - intros s first_document H. injection H as <-.
    repeat constructor; cbn [In]; intros H;
      repeat destruct H as [H | H]; try discriminate H; exact H.
  - intros q fields H. destruct (existsb (String.eqb "_id") fields) eqn:X;
      [ | reflexivity].
    exfalso. apply H. apply existsb_exists in X. destruct X as [x [Hx E]].
    apply String.eqb_eq in E. subst x. exact Hx.
Defined.

(** ** White space around the response *)

Lemma lstrip_spaces (ws s : string) :
  all is_space ws = true -> lstrip (ws ++ s) = lstrip s.
Proof.
  induction ws as [|c ws IH]; [reflexivity | ].
  cbn [all append lstrip]. intros H. apply andb_true_iff in H.
  destruct H as [Hc Hws]. rewrite Hc. exact (IH Hws).
Qed.

Lemma rstrip_spaces (s ws : string) :
  all is_space ws = true -> rstrip (s ++ ws) = rstrip s.
Proof.
  intros H. induction s as [|c s IH].
  - cbn [append]. induction ws as [|d ws IHw]; [reflexivity | ].
    cbn [all] in H. apply andb_true_iff in H. destruct H as [Hd Hws].
    cbn [rstrip]. rewrite (IHw Hws), Hd. reflexivity.
  - cbn [append rstrip]. rewrite IH. reflexivity.
Qed.

Lemma strip_padding (ws1 s ws2 : string) :
  all is_space ws1 = true -> all is_space ws2 = true ->
  strip (ws1 ++ s ++ ws2) = strip s.
Proof.
  intros H1 H2. unfold strip. rewrite (lstrip_spaces _ _ H1).
  induction s as [|c s IH].
  - cbn [append]. rewrite <- (append_nil_r ws2) at 1.
    rewrite (lstrip_spaces _ _ H2). reflexivity.
  - cbn [append lstrip]. destruct (is_space c); [exact IH | ].
    exact (rstrip_spaces (String c s) ws2 H2).
Qed.

(** X17: white space around the response of the generator never
    matters: the response and the response with white space in front of
    it and behind it give the same query. *)
Theorem response_padding_is_ignored
        (llm llm' : string -> list string -> option string)
        (user_input : string) (fields : list string) (ws1 ws2 : string) :
  all is_space ws1 = true -> all is_space ws2 = true ->
  llm' user_input fields
  = option_map (fun r => ws1 ++ r ++ ws2) (llm user_input fields) ->
  generate_mongodb_query llm' user_input fields
  = generate_mongodb_query llm user_input fields.
Proof.
  intros H1 H2 E. unfold generate_mongodb_query. rewrite E.
  destruct (llm user_input fields) as [r|]; cbn [option_map]; [ | reflexivity].
  rewrite (strip_padding ws1 r ws2 H1 H2). reflexivity.
Qed.

Lemma response_padding_is_ignored_witness :
  generate_mongodb_query (fun _ _ => Some (py "| {~a~: 1} |")) "all" ["a"]
  = generate_mongodb_query (fun _ _ => Some (py "{~a~: 1}")) "all" ["a"].
Proof.
  apply (response_padding_is_ignored
           (fun _ _ => Some (py "{~a~: 1}")) (fun _ _ => Some (py "| {~a~: 1} |"))
           "all" ["a"] (py "| ") (py " |")); reflexivity.
Defined.

(** ** What the strict parser can return *)

Lemma match_number_data (s : string) (v : pyval) (r : string) :
  match_number s = Returns (v, r) -> is_data v = true.
Proof.
  unfold match_number.
  destruct (match s with String "-" s' => (true, s') | _ => (false, s) end)
    as [neg s0].
  destruct s0 as [|c s1]; [discriminate | ].
  destruct (is_digit c); [ | discriminate].
  destruct (if Ascii.eqb c "0" then _ else _) as [ip r1].
  destruct (match r1 with String "." r => _ | _ => _ end) as [fp r2].
  match goal with |- context [let '(_, _) := ?X in _] => destruct X as [ex r3] end.
  assert (I : forall n ds v0, mk_int n ds = Returns v0 -> is_data v0 = true).
  { unfold mk_int. intros n ds v0. destruct (Nat.ltb _ _); [discriminate | ].
    intros H. injection H as <-. reflexivity. }
  assert (F : forall n ds e v0, mk_float n ds e = Returns v0 -> is_data v0 = true).
  { unfold mk_float. intros n ds e v0. destruct (strip_zeros _ _ _) as [m e'].
    destruct (N.eqb m 0); [intros H; injection H as <-; reflexivity | ].
    destruct (_ && _); [intros H; injection H as <-; reflexivity | discriminate]. }
  destruct fp, ex;
    match goal with
    | |- bind ?X _ = _ -> _ => destruct X as [v0| |] eqn:E
    end; cbn [bind]; intros H; try discriminate H; injection H as <- <-;
    first [exact (I _ _ _ E) | exact (F _ _ _ _ E)].
Qed.

Lemma scan_data (fuel : nat) :
  (forall s v r, scan_once fuel s = Returns (v, r) -> is_data v = true) /\
  (forall s acc v r,
      forallb (fun '(k, x) => is_data k && is_data x) acc = true ->
      parse_members fuel s acc = Returns (v, r) -> is_data v = true) /\
  (forall s acc v r,
      forallb is_data acc = true ->
      parse_elements fuel s acc = Returns (v, r) -> is_data v = true).
Proof.
  induction fuel as [|f [IHs [IHm IHe]]];
    [split; [ | split]; intros; discriminate | ].
  assert (Snoc : forall acc val, forallb is_data acc = true -> is_data val = true ->
                                 forallb is_data (acc ++ [val]) = true).
  { intros acc val Ha Hv. rewrite forallb_app, Ha. cbn [forallb]. rewrite Hv.
    reflexivity. }
  split; [ | split].
  - intros s v r H. cbn [scan_once] in H.
    destruct s as [|c s1]; [discriminate H | ].
    destruct (Ascii.eqb c dquote).
    { destruct (scanstring s1) as [[t r0]| |]; cbn [bind] in H; try discriminate H.
      injection H as <- <-. reflexivity. }
    destruct (Ascii.eqb c "{").
    { destruct (skip_json_ws s1) as [|[[] [] [] [] [] [] [] []] r0];
        first [injection H as <- <-; reflexivity
              | exact (IHm _ [] _ _ eq_refl H)]. }
    destruct (Ascii.eqb c "[").
    { destruct (skip_json_ws s1) as [|[[] [] [] [] [] [] [] []] r0];
        first [injection H as <- <-; reflexivity
              | exact (IHe _ [] _ _ eq_refl H)]. }
    destruct (starts_with "null" _); [injection H as <- <-; reflexivity | ].
    destruct (starts_with "true" _); [injection H as <- <-; reflexivity | ].
    destruct (starts_with "false" _); [injection H as <- <-; reflexivity | ].
    destruct (_ || _); [discriminate H | ].
    exact (match_number_data _ _ _ H).
  - intros s acc v r Ha H. cbn [parse_members] in H.
    destruct s as [|c s1]; [discriminate H | ].
    destruct (Ascii.eqb c dquote); [ | discriminate H].
    destruct (scanstring s1) as [[key r1]| |]; cbn [bind] in H; try discriminate H.
    destruct (skip_json_ws r1) as [|[[] [] [] [] [] [] [] []] r2];
      try discriminate H.
    destruct (scan_once f (skip_json_ws r2)) as [[val r3]| |] eqn:E;
      cbn [bind] in H; try discriminate H.
    assert (Ha' : forallb (fun '(k, x) => is_data k && is_data x)
                          (dict_set (VStr key) val acc) = true).
    { apply dict_set_data; [reflexivity | exact (IHs _ _ _ E) | exact Ha]. }
    destruct (skip_json_ws r3) as [|[[] [] [] [] [] [] [] []] r4];
      try discriminate H;
      first [injection H as <- <-; exact Ha' | exact (IHm _ _ _ _ Ha' H)].
  - intros s acc v r Ha H. cbn [parse_elements] in H.
    destruct (scan_once f s) as [[val r1]| |] eqn:E;
      cbn [bind] in H; try discriminate H.
    pose proof (Snoc acc val Ha (IHs _ _ _ E)) as Ha'.
    destruct (skip_json_ws r1) as [|[[] [] [] [] [] [] [] []] r2];
      try discriminate H;
      first [injection H as <- <-; exact Ha' | exact (IHe _ _ _ _ Ha' H)].
Qed.

Lemma json_loads_data (s : string) (v : pyval) :
  json_loads s = Returns v -> is_data v = true.
Proof.
  unfold json_loads.
  destruct (scan_once _ _) as [[v0 r]| |] eqn:E; cbn [bind]; try discriminate.
  destruct (skip_json_ws r); [ | discriminate].
  intros H. injection H as <-. exact (proj1 (scan_data _) _ _ _ E).
Qed.

(** X18: the strict parser returns values built from literals only, so
    a result of the repair of a text that holds a function object comes
    from the fallback evaluation, after the strict parser has refused
    the text. *)
Theorem function_objects_come_from_the_fallback (s : string) (v : pyval) :
  (json_loads (working_string s) = Returns v -> is_data v = true) /\
  (fix_llm_query (VStr s) = Returns v -> is_data v = false ->
   json_loads (working_string s) = Raises /\
   py_eval [] [] (working_string s) = Returns v).
Proof.
  split; [apply json_loads_data | ].
  rewrite fix_llm_query_text. intros H D.
  destruct (json_loads (working_string s)) as [v0| |] eqn:J; try discriminate H.
  - injection H as ->. rewrite (json_loads_data _ _ J) in D. discriminate D.
  - split; [reflexivity | ].
    destruct (py_eval [] [] (working_string s)) as [v0| |]; cbn in H;
      try discriminate H.
    + injection H as ->. reflexivity.
    + injection H as <-. discriminate D.
Qed.

Lemma function_objects_come_from_the_fallback_witness :
  json_loads (working_string "len") = Raises /\
  py_eval [] [] (working_string "len") = Returns (VBuiltin "len").
Proof.
  apply (function_objects_come_from_the_fallback "len" (VBuiltin "len"));
    vm_compute; reflexivity.
Defined.

(** ** The format and the wrapper in the flow of a round *)

(** X19: the output format is looked at only after documents were
    found: when the storage finds nothing, or fails, the call does the
    same for every format and file name, so that a format that is not
    valid goes unnoticed. *)
Theorem format_matters_only_with_documents
        (collection_find : pyval -> option (list pyval)) (q : pyval)
        (output_format output_format' : string)
        (output_filename output_filename' : option string) :
  (forall x, collection_find x = Some [] \/ collection_find x = None) ->
  retrieve_and_present_data collection_find q output_format output_filename
  = retrieve_and_present_data collection_find q output_format' output_filename'.
Proof.
  intros E. unfold retrieve_and_present_data.
  destruct (if isinstance_str q then fix_llm_query q else Returns q)
    as [query| |]; cbn [bind]; try reflexivity.
  destruct (isinstance_dict query); cbn [negb]; [ | reflexivity].
  destruct (E query) as [-> | ->]; reflexivity.
Qed.

Lemma format_matters_only_with_documents_witness :
  retrieve_and_present_data (fun _ => Some []) (VDict [(VStr "a", VInt 1)])
                            "print" None
  = retrieve_and_present_data (fun _ => Some []) (VDict [(VStr "a", VInt 1)])
                              "save" (Some "out.csv").
Proof.
  apply (format_matters_only_with_documents
           (fun _ => Some []) (VDict [(VStr "a", VInt 1)])
           "print" "save" None (Some "out.csv")).
  intros x. left. reflexivity.
Defined.

Lemma from_first_prefix (c : ascii) (pre t : string) :
  free_of c pre = true -> from_first c (pre ++ String c t) = Some (String c t).
Proof.
  unfold free_of. induction pre as [|d pre IH]; cbn [all append from_first].
  - intros _. rewrite Ascii.eqb_refl. reflexivity.
  - intros H. apply andb_true_iff in H. destruct H as [Hd Hp].
    apply negb_true_iff in Hd. rewrite Hd. exact (IH Hp).
Qed.

Lemma spaces_free_of_brace (ws : string) :
  all is_space ws = true -> free_of "{" ws = true.
Proof.
  unfold free_of. induction ws as [|c ws IH]; [reflexivity | ].
  cbn [all]. intros H. apply andb_true_iff in H. destruct H as [Hc Hws].
  destruct (space_is_not c Hc) as (_ & E & _). rewrite E, (IH Hws). reflexivity.
Qed.

Lemma wrapper_has_brace_span (ws1 q1 q2 ws2 ws3 body ws4 : string) :
  all is_space ws1 = true -> opt_quote q1 -> opt_quote q2 ->
  all is_space ws2 = true -> all is_space ws3 = true ->
  has_brace_span (find_wrapper_text ws1 q1 q2 ws2 ws3 body ws4) = false ->
  body = EmptyString.
Proof.
  intros H1 Hq1 Hq2 H2 H3 H.
  assert (Q : forall q, opt_quote q -> free_of "{" q = true)
    by (intros q [-> | [-> | ->]]; reflexivity).
  unfold has_brace_span, find_wrapper_text in H.
  replace (ws1 ++ q1 ++ "find" ++ q2 ++ ws2 ++ ":" ++ ws3 ++ "{" ++ body ++ "}" ++ ws4)
    with ((ws1 ++ q1 ++ "find" ++ q2 ++ ws2 ++ ":" ++ ws3)
            ++ String "{" (body ++ "}" ++ ws4)) in H
    by (rewrite ?append_assoc; cbn [append]; rewrite ?append_assoc; reflexivity).
  rewrite from_first_prefix in H.
  - destruct body as [|b body]; [reflexivity | ].
    cbn [append] in H. rewrite free_of_has_no in H. discriminate H.
  - unfold free_of. rewrite !all_append.
    fold (free_of "{" ws1) (free_of "{" q1) (free_of "{" q2)
         (free_of "{" ws2) (free_of "{" ws3).
    rewrite (spaces_free_of_brace _ H1), (spaces_free_of_brace _ H2),
      (spaces_free_of_brace _ H3), (Q _ Hq1), (Q _ Hq2). reflexivity.
Qed.

(** X20: for a response without a fence the extraction leaves the
    first repair step almost nothing to do: a candidate taken from a
    brace span begins with its brace, so a [find:] in front of it is
    already gone; the step changes the candidate only when the response
    is a wrapper around empty braces. *)
Theorem wrapper_step_after_extraction (raw : string) :
  contains "```" raw = false ->
  unwrap_find (extract_candidate raw) <> extract_candidate raw ->
  exists ws1 q1 q2 ws2 ws3 ws4,
    raw = find_wrapper_text ws1 q1 q2 ws2 ws3 EmptyString ws4 /\
    extract_candidate raw = raw /\
    unwrap_find (extract_candidate raw) = "{}".
Proof.
  intros Hf U. unfold extract_candidate in *.
  rewrite (fence_search_none raw Hf) in *.
  destruct (has_brace_span raw) eqn:B.
  - exfalso.
    destruct (has_brace_span_parts raw B) as (pre & mid & post & E & Hp & Hm & Ht & _).
    subst raw. rewrite (brace_search_some pre mid post Hp Hm Ht) in U.
    apply U. exact (unwrap_find_brace (mid ++ "}")).
  - rewrite (brace_search_none raw B) in *.
    destruct (re_match find_wrapper_re raw) as [cs|] eqn:M.
    + destruct (find_wrapper_match_inv raw cs M)
        as (ws1 & q1 & q2 & ws2 & ws3 & body & ws4 & E & H1 & Hq1 & Hq2 & H2 & H3 & H4).
      subst raw.
      pose proof (wrapper_has_brace_span _ _ _ _ _ _ _ H1 Hq1 Hq2 H2 H3 B) as Eb.
      subst body.
      exists ws1, q1, q2, ws2, ws3, ws4. split; [reflexivity | split; [reflexivity | ]].
      unfold unwrap_find.
      rewrite (find_wrapper_match ws1 q1 q2 ws2 ws3 EmptyString ws4 H1 Hq1 Hq2 H2 H3 H4).
      reflexivity.
    + exfalso. apply U. unfold unwrap_find. rewrite M. reflexivity.
Qed.

Lemma wrapper_step_after_extraction_witness :
  exists ws1 q1 q2 ws2 ws3 ws4,
    "find: {}" = find_wrapper_text ws1 q1 q2 ws2 ws3 EmptyString ws4 /\
    extract_candidate "find: {}" = "find: {}" /\
    unwrap_find (extract_candidate "find: {}") = "{}".
Proof.
  apply (wrapper_step_after_extraction "find: {}").
  - reflexivity.
  - vm_compute. discriminate.
Defined.
